(** * Wheels: version resolution, wheel build and upload

    A shallow embedding of [src/databricks/labs/blueprint/wheels.py]
    (class [Wheels]) and the properties of its version resolver, its
    builder, its scoped lifecycle and its upload operations.

    Layout:
    - [Str]      Python [str] operations the module uses;
    - [Py]       exceptions, results, private-name mangling;
    - [Fs]       the local file system as a tree of directories;
    - [SemVer]   the semantic-version parser the module imports;
    - [Pep440]   the packaging version grammar named in the source;
    - [Wheels]   the state-and-exception monad the methods run in and
                 the class itself, method by method;
    - [Scenario] a concrete project to run the methods on;
    - [Notions]  what the properties are stated with;
    - [Coverage] the two stages of a build, and the notions for them;
    - [StrFacts], [VersionFacts], [FsFacts], [WheelsFacts],
      [VersionTheory], [ScopeTheory], [Surface]: lemmas;
    - the properties of the specification, C1 to C10;
    - [CoverageFacts] and the further properties of the code, X1 to
      X15, method by method. *)

From Stdlib Require Import Ascii String ZArith List Lia.
From stdpp Require Import base option strings list gmap pretty.

Local Open Scope string_scope.
Local Open Scope list_scope.

(* ===================================================================== *)
(** ** Python strings *)
(* ===================================================================== *)

Module Str.

(** The two characters that a literal cannot hold directly. *)
Definition dquote : string := String "034"%char "".
Definition newline : string := String "010"%char "".

(** [all P s]: every character of [s] satisfies [P]. *)
Fixpoint all (P : ascii → bool) (s : string) : bool :=
  match s with
  | "" => true
  | String c s' => P c && all P s'
  end.

(** [c in s] for a one-character needle. *)
Fixpoint mem (c : ascii) (s : string) : bool :=
  match s with
  | "" => false
  | String d s' => if decide (d = c) then true else mem c s'
  end.

(** [s.startswith(p)] *)
Fixpoint startswith (p s : string) : bool :=
  match p, s with
  | "", _ => true
  | String a p', String b s' => if decide (a = b) then startswith p' s' else false
  | String _ _, "" => false
  end.

(** [s.endswith(p)]: [s] is [p], or what follows its first character
    ends with [p]. *)
Fixpoint endswith (p s : string) : bool :=
  bool_decide (s = p)
  || match s with
     | "" => false
     | String _ s' => endswith p s'
     end.

(** [s.split(sep)] for a generalised one-character separator: the list
    is never empty, [split_by sep ""] is [[""]]. *)
Fixpoint split_by (sep : ascii → bool) (s : string) : list string :=
  match s with
  | "" => [""]
  | String c s' =>
      if sep c then "" :: split_by sep s'
      else match split_by sep s' with
           | seg :: rest => String c seg :: rest
           | [] => [String c ""]
           end
  end.

Definition is_char (c : ascii) : ascii → bool := λ d, bool_decide (d = c).

(** [s.split(c)] *)
Definition split (c : ascii) (s : string) : list string := split_by (is_char c) s.

(** [s.partition(c)] without the separator: the text before the first
    [c], and the text after it when there is one. *)
Fixpoint cut (c : ascii) (s : string) : string * option string :=
  match s with
  | "" => ("", None)
  | String d s' =>
      if decide (d = c) then ("", Some s')
      else let '(a, b) := cut c s' in (String d a, b)
  end.

(** [sep.join(l)] *)
Fixpoint join (sep : string) (l : list string) : string :=
  match l with
  | [] => ""
  | [x] => x
  | x :: l' => x +:+ sep +:+ join sep l'
  end.

(** [s.rstrip(c)] *)
Fixpoint rstrip (c : ascii) (s : string) : string :=
  match s with
  | "" => ""
  | String d s' =>
      match rstrip c s' with
      | "" => if decide (d = c) then "" else String d ""
      | r => String d r
      end
  end.

(** [sub in s] as a proposition, for stating what a message includes. *)
Definition contains (sub s : string) : Prop := ∃ a b, s = a +:+ sub +:+ b.

Definition is_digit (c : ascii) : bool :=
  let n := nat_of_ascii c in Nat.leb 48 n && Nat.leb n 57.
Definition is_alpha (c : ascii) : bool :=
  let n := nat_of_ascii c in
  (Nat.leb 65 n && Nat.leb n 90) || (Nat.leb 97 n && Nat.leb n 122).
Definition is_alnum (c : ascii) : bool := is_digit c || is_alpha c.

(** *** Characters

    A [str] is a sequence of characters and the model holds the bytes
    of its UTF-8 form.  Splitting at an ASCII character and testing for
    an ASCII class read the same on the bytes as on the characters; the
    class [\d] of a pattern and [int] do not, they take the decimal
    digits of every script.  [points s] is the sequence of the
    characters of [s] by their numbers; bytes that are not the UTF-8
    form of a character give [no_char]. *)
Definition no_char : N := 1114112.

Fixpoint points_go (need : nat) (cp low : N) (s : string) : list N :=
  match s with
  | "" => match need with 0 => [] | S _ => [no_char] end
  | String c s' =>
      let b := N_of_ascii c in
      match need with
      | 0 =>
          if (b <? 128)%N then b :: points_go 0 0 0 s'
          else if (192 <=? b)%N && (b <? 224)%N
          then points_go 1 (b - 192) 128 s'
          else if (224 <=? b)%N && (b <? 240)%N
          then points_go 2 (b - 224) 2048 s'
          else if (240 <=? b)%N && (b <? 248)%N
          then points_go 3 (b - 240) 65536 s'
          else no_char :: points_go 0 0 0 s'
      | S k =>
          if (128 <=? b)%N && (b <? 192)%N then
            let cp' := (cp * 64 + (b - 128))%N in
            match k with
            | 0 => (if (low <=? cp')%N then cp' else no_char)
                   :: points_go 0 0 0 s'
            | S _ => points_go k cp' low s'
            end
          else no_char :: points_go 0 0 0 s'
      end
  end.

Definition points (s : string) : list N := points_go 0 0 0 s.

(** Library model: the decimal digits of Unicode 14.0 (general
    category Nd), the version that CPython 3.11 carries.  They come in
    runs of ten, from the digit zero to the digit nine of a script;
    [decimal_zeros] lists the zero of each run. *)
Definition decimal_zeros : list N :=
  [48; 1632; 1776; 1984; 2406; 2534; 2662; 2790; 2918; 3046; 3174;
   3302; 3430; 3558; 3664; 3792; 3872; 4160; 4240; 6112; 6160; 6470;
   6608; 6784; 6800; 6992; 7088; 7232; 7248; 42528; 43216; 43264;
   43472; 43504; 43600; 44016; 65296; 66720; 68912; 69734; 69872;
   69942; 70096; 70384; 70736; 70864; 71248; 71360; 71472; 71904;
   72016; 72784; 73040; 73120; 92768; 92864; 93008; 120782; 120792;
   120802; 120812; 120822; 123200; 123632; 125264; 130032]%N.

(** The value of a decimal digit. *)
Definition decimal (cp : N) : option N :=
  (λ z, cp - z)%N
    <$> List.find (λ z, (z <=? cp)%N && (cp <? z + 10)%N) decimal_zeros.

(** [\d] *)
Definition is_decimal (cp : N) : bool :=
  match decimal cp with Some _ => true | None => false end.

(** [int(s)] for a string without sign, blanks or underscores: the
    value of a non-empty string of decimal digits, and [None], where
    [int] raises [ValueError], for any other string. *)
Definition int (s : string) : option N :=
  match points s with
  | [] => None
  | l => foldl (λ acc cp, match acc, decimal cp with
                          | Some a, Some d => Some (a * 10 + d)%N
                          | _, _ => None
                          end) (Some 0%N) l
  end.

(** [str(x)] and [f"{x}"] for an [Optional[str]]. *)
Definition of_optional (o : option string) : string :=
  match o with
  | Some s => s
  | None => "None"
  end.

(** [repr(s)]: the text between quotes, single ones unless the text
    holds a single quote and no double quote; the quote in use and the
    backslash are escaped, and so are the control characters.  Bytes
    above 127 belong to characters outside ASCII and are kept, as
    [repr] keeps every printable character. *)
Definition squote : ascii := "039"%char.
Definition backslash : ascii := "092"%char.

Definition hex_digit (n : N) : ascii :=
  ascii_of_N (if (n <? 10)%N then 48 + n else 87 + n).

Definition escape (quote c : ascii) : string :=
  let n := N_of_ascii c in
  if bool_decide (c = quote) || bool_decide (c = backslash)
  then String backslash (String c "")
  else if bool_decide (c = "009"%char) then String backslash "t"
  else if bool_decide (c = "010"%char) then String backslash "n"
  else if bool_decide (c = "013"%char) then String backslash "r"
  else if (n <? 32)%N || bool_decide (n = 127%N)
  then String backslash
         (String "x" (String (hex_digit (n / 16)) (String (hex_digit (n mod 16)) "")))
  else String c "".

Fixpoint escape_all (quote : ascii) (s : string) : string :=
  match s with
  | "" => ""
  | String c s' => escape quote c +:+ escape_all quote s'
  end.

Definition repr (s : string) : string :=
  let quote :=
    if mem squote s && negb (mem "034"%char s) then "034"%char else squote in
  String quote (escape_all quote s +:+ String quote "").

End Str.

(* ===================================================================== *)
(** ** Python runtime: exceptions, results, private names *)
(* ===================================================================== *)

Module Py.

(** The exception classes that the module and the library calls it
    makes can raise.  All of them derive from [Exception], so the
    clause [except Exception as err] of [Wheels.version] catches each
    one. *)
Inductive exn_class :=
| OSError | FileNotFoundError | FileExistsError | NotADirectoryError
| IsADirectoryError | CalledProcessError | ValueError
| UnicodeDecodeError | AttributeError | TypeError | StopIteration
| DatabricksError.

(** An exception value: its class and [str(err)]. *)
Record exn := Exn { exn_cls : exn_class; exn_str : string }.

Inductive result (A : Type) :=
| Ok (a : A)
| Raise (e : exn).
Arguments Ok {A} a.
Arguments Raise {A} e.

Definition is_ok {A} (r : result A) : bool :=
  match r with Ok _ => true | Raise _ => false end.

(** Private name mangling.  Inside the body of class [cls] an
    identifier that starts with two underscores and does not end with
    two underscores is rewritten to [_cls__name] (leading underscores
    of the class name stripped; a class name made of underscores only
    disables the rewriting).  String literals are not identifiers and
    are never rewritten. *)
Fixpoint lstrip_underscores (s : string) : string :=
  match s with
  | String "_" s' => lstrip_underscores s'
  | _ => s
  end.

Definition mangle (cls ident : string) : string :=
  if Str.startswith "__" ident && negb (Str.endswith "__" ident) then
    match lstrip_underscores cls with
    | "" => ident
    | c => "_" +:+ c +:+ ident
    end
  else ident.

End Py.

Export Py.

(* ===================================================================== *)
(** ** The local file system *)
(* ===================================================================== *)

(** A directory is the list of its entries in the order in which the
    operating system enumerates them; a path is the list of its
    components below the root directory.  [lookup], [put], [put_parents]
    and [remove] work on a location, a path whose components are entry
    names; a path that was joined from text may hold [..] components,
    and [resolve] gives the location that the operating system reaches
    by it.  Symbolic links, permissions and the current directory are
    not modelled. *)
Module Fs.

Definition path := list string.

#[local] Unset Elimination Schemes.
Inductive node :=
| File (content : string)
| Dir (entries : list (string * node)).
#[local] Set Elimination Schemes.

(** Entries of a directory, by name. *)
Fixpoint assoc (k : string) (es : list (string * node)) : option node :=
  match es with
  | [] => None
  | (k', v) :: es' => if decide (k' = k) then Some v else assoc k es'
  end.

(** Replace the entry called [k] where it stands, or append a new one. *)
Fixpoint assoc_set (k : string) (v : node) (es : list (string * node))
  : list (string * node) :=
  match es with
  | [] => [(k, v)]
  | (k', v') :: es' =>
      if decide (k' = k) then (k, v) :: es' else (k', v') :: assoc_set k v es'
  end.

Fixpoint assoc_del (k : string) (es : list (string * node))
  : list (string * node) :=
  match es with
  | [] => []
  | (k', v') :: es' =>
      if decide (k' = k) then assoc_del k es' else (k', v') :: assoc_del k es'
  end.

(** The node a path names, if any. *)
Fixpoint lookup (p : path) (n : node) : option node :=
  match p with
  | [] => Some n
  | c :: p' =>
      match n with
      | Dir es => match assoc c es with
                  | Some child => lookup p' child
                  | None => None
                  end
      | File _ => None
      end
  end.

(** [Path.exists()] *)
Definition exists_ (p : path) (n : node) : bool :=
  match lookup p n with Some _ => true | None => false end.

(** Install [x] at [p]; every proper ancestor of [p] must already be a
    directory. [None] when one is missing or is a file. *)
Fixpoint put (p : path) (x : node) (n : node) : option node :=
  match p with
  | [] => Some x
  | c :: p' =>
      match n with
      | Dir es =>
          match p' with
          | [] => Some (Dir (assoc_set c x es))
          | _ :: _ =>
              match assoc c es with
              | Some child =>
                  match put p' x child with
                  | Some child' => Some (Dir (assoc_set c child' es))
                  | None => None
                  end
              | None => None
              end
          end
      | File _ => None
      end
  end.

(** Install [x] at [p], creating the missing ancestors
    ([os.makedirs]); [None] when an ancestor is a file. *)
Fixpoint put_parents (p : path) (x : node) (n : node) : option node :=
  match p with
  | [] => Some x
  | c :: p' =>
      match n with
      | Dir es =>
          let child := match assoc c es with
                       | Some ch => ch
                       | None => Dir []
                       end in
          match put_parents p' x child with
          | Some child' => Some (Dir (assoc_set c child' es))
          | None => None
          end
      | File _ => None
      end
  end.

(** Remove the entry [p] with everything below it; no effect when [p]
    does not exist (or is the root). *)
Fixpoint remove (p : path) (n : node) : node :=
  match p with
  | [] => n
  | c :: p' =>
      match n with
      | Dir es =>
          match p' with
          | [] => Dir (assoc_del c es)
          | _ :: _ =>
              match assoc c es with
              | Some child => Dir (assoc_set c (remove p' child) es)
              | None => n
              end
          end
      | File _ => n
      end
  end.

(** The shortest prefix of [p] that stands right below a regular
    file, when there is one: the directory that [os.makedirs] cannot
    create. *)
Fixpoint stuck (p : path) (n : node) : path :=
  match p with
  | [] => []
  | c :: p' =>
      match n with
      | Dir es =>
          match assoc c es with
          | Some child => c :: stuck p' child
          | None => [c]
          end
      | File _ => [c]
      end
  end.

(** Where following a path leads: to a location, or nowhere because a
    directory to leave by [..] does not exist or is a regular file. *)
Inductive resolved :=
| At (q : path)
| Missing
| NotDirectory.

(** Following [p] from the location [q].  A component [..] leaves the
    directory reached so far, which must exist and be a directory, for
    its parent; the root is its own parent.  Any other component is an
    entry name; whether the entry exists is for the operation that
    uses the location to find. *)
Fixpoint resolve_from (q p : path) (n : node) : resolved :=
  match p with
  | [] => At q
  | c :: p' =>
      if decide (c = "..") then
        match lookup q n with
        | Some (Dir _) => resolve_from (removelast q) p' n
        | Some (File _) => NotDirectory
        | None => Missing
        end
      else resolve_from (q ++ [c]) p' n
  end.

Definition resolve (p : path) (n : node) : resolved := resolve_from [] p n.

(** Two paths diverge when neither is an ancestor of (or equal to)
    the other. *)
Fixpoint diverge (p q : path) : bool :=
  match p, q with
  | a :: p', b :: q' => if decide (a = b) then diverge p' q' else true
  | _, _ => false
  end.

(** [PurePath.parts] of a relative string: split at the slashes,
    dropping empty components and single dots. *)
Definition parts (s : string) : path :=
  filter (λ c, c ≠ "" ∧ c ≠ ".") (Str.split "/" s).

(** [p / s]: an absolute right operand replaces the left one. *)
Definition joinpath (p : path) (s : string) : path :=
  if Str.startswith "/" s then parts s else p ++ parts s.

(** [Path(s)] for an absolute path string. *)
Definition of_string (s : string) : path := parts s.

(** [p.as_posix()] and [str(p)] *)
Definition as_posix (p : path) : string := "/" +:+ Str.join "/" p.

(** [p.name] *)
Definition name (p : path) : string := List.last p "".

(** [Path(dir).glob("*" + suffix)]: the entries of [dir] (files and
    directories alike) whose name ends with [suffix], in enumeration
    order. *)
Definition glob_suffix (dir : path) (suffix : string) (n : node) : list path :=
  match lookup dir n with
  | Some (Dir es) =>
      (λ e, dir ++ [e.1]) <$> filter (λ e, Str.endswith suffix e.1 = true) es
  | _ => []
  end.

(** [posixpath.dirname]: everything up to the last slash, with the
    trailing slashes dropped unless nothing else is left. *)
Fixpoint dirname_head (s : string) : string :=
  match s with
  | "" => ""
  | String c s' =>
      if Str.mem "/" s' then String c (dirname_head s')
      else if decide (c = "/"%char) then "/" else ""
  end.

Definition dirname (s : string) : string :=
  let head := dirname_head s in
  if Str.all (Str.is_char "/") head then head else Str.rstrip "/" head.

End Fs.

(* ===================================================================== *)
(** ** Semantic versions *)
(* ===================================================================== *)

(** Library model: [SemVer] is imported from [databricks.sdk]
    ([mixins/compute.py]) and is not part of this repository.  Its
    [parse] puts a [v] in front of a string that does not start with
    one, matches what follows the [v] against the pattern of semver.org
    loosened in two ways, the minor and the patch number may be the
    wildcard [x] and the patch number may be left out, and converts the
    three numbers with [int], a wildcard and a missing patch number
    counting as 0:
<<
    major        0 | [1-9] \d*
    minor        x | 0 | [1-9] \d*
    patch        x | 0 | [1-9x] \d*            optional, after a dot
    pre-release  dotted identifiers, each       optional, after a dash
                 0 | [1-9] \d* | \d* [a-zA-Z-] [0-9a-zA-Z-]*
    build        dotted identifiers, each       optional, after a plus
                 [0-9a-zA-Z-]+
>>
    A string that does not match raises [ValueError], and so does a
    patch number such as [x5], which the pattern lets through and [int]
    refuses.  The end anchor lets one final line feed pass.  The limit
    that CPython puts on the length of a number given to [int] (4300
    digits unless changed) is not modelled. *)
Module SemVer.

Record t := Make {
  major : N;
  minor : N;
  patch : N;
  pre_release : option string;
  build : option string;
}.

(** [[0-9a-zA-Z-]] *)
Definition is_ident_char (c : ascii) : bool :=
  Str.is_alnum c || bool_decide (c = "-"%char).

Definition is_nonzero_point (cp : N) : bool := (49 <=? cp)%N && (cp <=? 57)%N.
Definition is_alpha_point (cp : N) : bool :=
  ((65 <=? cp)%N && (cp <=? 90)%N) || ((97 <=? cp)%N && (cp <=? 122)%N).
Definition is_ident_point (cp : N) : bool :=
  ((48 <=? cp)%N && (cp <=? 57)%N) || is_alpha_point cp
  || bool_decide (cp = 45%N).

(** [0|[1-9]\d*] *)
Definition is_numeric (s : string) : bool :=
  match Str.points s with
  | [] => false
  | c :: rest =>
      (bool_decide (c = 48%N) && bool_decide (rest = []))
      || (is_nonzero_point c && forallb Str.is_decimal rest)
  end.

(** [x|0|[1-9]\d*] *)
Definition is_minor (s : string) : bool :=
  bool_decide (s = "x") || is_numeric s.

(** [x|0|[1-9x]\d*] *)
Definition is_patch (s : string) : bool :=
  match Str.points s with
  | [] => false
  | c :: rest =>
      (bool_decide (c = 48%N) && bool_decide (rest = []))
      || ((is_nonzero_point c || bool_decide (c = 120%N))
          && forallb Str.is_decimal rest)
  end.

Fixpoint skip_decimals (l : list N) : list N :=
  match l with
  | cp :: l' => if Str.is_decimal cp then skip_decimals l' else l
  | [] => []
  end.

(** [0|[1-9]\d*|\d*[a-zA-Z-][0-9a-zA-Z-]*] *)
Definition is_pre_ident (s : string) : bool :=
  is_numeric s
  || match skip_decimals (Str.points s) with
     | c :: rest =>
         (is_alpha_point c || bool_decide (c = 45%N))
         && forallb is_ident_point rest
     | [] => false
     end.

(** [[0-9a-zA-Z-]+] *)
Definition is_build_ident (s : string) : bool :=
  match s with
  | "" => false
  | _ => Str.all is_ident_char s
  end.

(** A dot-separated list of identifiers. *)
Definition dotted (ok : string → bool) (s : string) : bool :=
  forallb ok (Str.split "." s).

Definition opt_ok (ok : string → bool) (o : option string) : bool :=
  match o with
  | Some s => ok s
  | None => true
  end.

(** The end anchor matches at the end and before a final line feed:
    [chomp s] is [s] without that line feed. *)
Fixpoint chomp (s : string) : string :=
  match s with
  | "" => ""
  | String c "" => if decide (c = "010"%char) then "" else s
  | String c s' => String c (chomp s')
  end.

(** The groups of a match. *)
Record groups := Groups {
  g_major : string;
  g_minor : string;
  g_patch : option string;
  g_pre_release : option string;
  g_build : option string;
}.

Definition well_formed (g : groups) : bool :=
  is_numeric (g_major g) && is_minor (g_minor g)
  && opt_ok is_patch (g_patch g)
  && opt_ok (dotted is_pre_ident) (g_pre_release g)
  && opt_ok (dotted is_build_ident) (g_build g).

(** The pattern, anchored at both ends.  No field can hold a [+], and
    the numbers cannot hold a [-], so the first [+] starts the build
    metadata and the first [-] before it starts the pre-release. *)
Definition pattern_match (s : string) : option groups :=
  let '(front, bld) := Str.cut "+" (chomp s) in
  let '(core, pre) := Str.cut "-" front in
  let found :=
    match Str.split "." core with
    | [ma; mi] => Some (Groups ma mi None pre bld)
    | [ma; mi; pa] => Some (Groups ma mi (Some pa) pre bld)
    | _ => None
    end in
  match found with
  | Some g => if well_formed g then Some g else None
  | None => None
  end.

Definition invalid (v : string) : exn :=
  Exn ValueError ("Not a valid SemVer: " +:+ v).

(** [int(s)] *)
Definition to_int (s : string) : result N :=
  match Str.int s with
  | Some n => Ok n
  | None =>
      Raise (Exn ValueError
               ("invalid literal for int() with base 10: " +:+ Str.repr s))
  end.

(** [0 if s == 'x' else int(s)] *)
Definition number (s : string) : result N :=
  if bool_decide (s = "x") then Ok 0%N else to_int s.

(** The constructor call at the end of [parse]: the three numbers are
    converted in this order. *)
Definition convert (g : groups) : result t :=
  match to_int (g_major g) with
  | Raise e => Raise e
  | Ok ma =>
      match number (g_minor g) with
      | Raise e => Raise e
      | Ok mi =>
          match match g_patch g with
                | Some pa => number pa
                | None => Ok 0%N
                end with
          | Raise e => Raise e
          | Ok pa => Ok (Make ma mi pa (g_pre_release g) (g_build g))
          end
      end
  end.

(** [SemVer.parse(v)] *)
Definition parse (v : string) : result t :=
  match v with
  | "" => Raise (invalid v)
  | String c rest =>
      let '(v, body) := if decide (c = "v"%char) then (v, rest)
                        else ("v" +:+ v, v) in
      match pattern_match body with
      | Some g => convert g
      | None => Raise (invalid v)
      end
  end.

(** *** The standard grammar

    The grammar of semver.org (version 2.0.0), which the pattern above
    loosens: three numbers written in ASCII digits without a leading
    zero, then the optional pre-release and the optional build
    metadata. *)
Definition std_numeric (s : string) : bool :=
  match s with
  | "" => false
  | String c rest =>
      Str.all Str.is_digit s
      && (negb (bool_decide (c = "0"%char)) || bool_decide (rest = ""))
  end.

Definition std_pre_ident (s : string) : bool :=
  match s with
  | "" => false
  | _ => Str.all is_ident_char s
         && (negb (Str.all Str.is_digit s) || std_numeric s)
  end.

Definition standard (s : string) : bool :=
  let '(front, bld) := Str.cut "+" s in
  let '(core, pre) := Str.cut "-" front in
  match Str.split "." core with
  | [ma; mi; pa] =>
      std_numeric ma && std_numeric mi && std_numeric pa
      && opt_ok (dotted std_pre_ident) pre
      && opt_ok (dotted is_build_ident) bld
  | _ => false
  end.

End SemVer.

(* ===================================================================== *)
(** ** Packaging versions *)
(* ===================================================================== *)

(** Library model: the source names PEP 440 but calls no parser for it.
    The recogniser below accepts the part of that grammar that a final
    release with an optional local label uses,
    [N(.N)*[+label]] with [label] made of alphanumeric segments
    separated by [.], [-] or [_]; every string it accepts is a PEP 440
    version. *)
Module Pep440.

Definition is_release_segment (s : string) : bool :=
  match s with
  | "" => false
  | _ => Str.all Str.is_digit s
  end.

Definition is_local_segment (s : string) : bool :=
  match s with
  | "" => false
  | _ => Str.all Str.is_alnum s
  end.

Definition is_local_sep (c : ascii) : bool :=
  bool_decide (c = "."%char) || bool_decide (c = "-"%char)
  || bool_decide (c = "_"%char).

Definition is_release (s : string) : bool :=
  forallb is_release_segment (Str.split "." s).

Definition is_local (s : string) : bool :=
  forallb is_local_segment (Str.split_by is_local_sep s).

Definition valid (s : string) : bool :=
  let '(public, loc) := Str.cut "+" s in
  is_release public && SemVer.opt_ok is_local loc.

End Pep440.

(* ===================================================================== *)
(** ** The wheel builder *)
(* ===================================================================== *)

Module Wheels.
Import Fs.

(** *** What the class talks to *)

(** [datetime.datetime]: the fields that the stamp prints. *)
Record datetime := {
  year : N; month : N; day : N; hour : N; minute : N; second : N;
}.

Definition zpad2 (n : N) : string :=
  if (n <? 10)%N then "0" +:+ pretty n else pretty n.

(** [dt.strftime("%Y%m%d%H%M%S")]: the C library prints the year as
    it is, without padding, and every other field on two digits. *)
Definition strftime_YmdHMS (dt : datetime) : string :=
  pretty (year dt) +:+ zpad2 (month dt) +:+ zpad2 (day dt)
  +:+ zpad2 (hour dt) +:+ zpad2 (minute dt) +:+ zpad2 (second dt).

(** The [stdout] and [stderr] arguments of [subprocess.run];
    [Inherit] is the default, [None]. *)
Inductive redirect := PIPE | STDOUT | DEVNULL | Inherit.

(** Captured output: bytes that decode as UTF-8 to [text], or bytes
    that do not. *)
Inductive captured :=
| Utf8 (text : string)
| NotUtf8 (reason : string).

(** What starting a child process leads to: it cannot be started, or
    it runs, may change the file system, and exits. *)
Inductive proc_outcome :=
| SpawnFailed (e : exn)
| Exited (returncode : Z) (out : captured) (fs' : node).

(** [subprocess.CompletedProcess]; [cp_stdout] is [None] unless the
    output was piped. *)
Record CompletedProcess := {
  cp_returncode : Z;
  cp_stdout : option captured;
}.

(** Modelled from the spec: [InstallState] lives in
    [databricks.labs.blueprint.installer], which is not among the
    sources; the specification gives its interface,
    [productName() -> string] and [installFolder() -> string]. *)
Record InstallState := {
  product : string;
  install_folder : string;
}.

(** The surroundings of one run.  External programs and the clock are
    oracles indexed by a logical time that advances at every use, so
    that two uses may get different answers: the repository can gain
    a tag and the clock moves between two calls.

    Modelled from the spec: [find_project_root] lives in
    [databricks.labs.blueprint.entrypoint], which is not among the
    sources; the specification gives [findProjectRoot() -> Path], a
    directory taken to be the project root.

    [find_project_root] and [mkdtemp] name locations: absolute paths
    without [..], as [tempfile] makes them. *)
Record Env := {
  find_project_root : path;
  sys_executable : string;
  exec : nat → list string → node → proc_outcome;
  now : nat → datetime;
  mkdtemp : nat → path;
}.

(** The two remote stores of the workspace client. *)
Inductive storage := DBFS | WSFS.

(** Library model: the remote storage client of [databricks.sdk],
    from its interface in the specification: [mkdirs(path)] creates
    the directory if it is absent, [upload(path, handle, overwrite)]
    stores the content and refuses a path that already holds a file
    unless [overwrite] is set. *)
Record remote := {
  r_dirs : gset string;
  r_files : gmap string string;
}.

(** Everything the methods do to the outside, in order. *)
Inductive event :=
| EvRun (argv : list string) (stdout stderr : redirect) (returncode : option Z)
| EvLog (level msg : string)
| EvMkdirs (target : storage) (dir : string)
| EvUpload (target : storage) (dest content : string) (overwrite : bool)
           (format : option string).

(** Values held by the attributes that the methods create. *)
Inductive pyval :=
| VStr (s : string)
| VPath (p : path)
| VTmpDir (name : path).

(** *** The instance and the state *)

(** [__init__] binds these once and no method rebinds them ([_ws] is
    the pair of remote stores in the state, [_this_file] is unused). *)
Record Wheels := {
  _install_state : InstallState;
  _released_version : string;
  _github_org : string;
}.

Definition init_attrs : list string :=
  ["_ws"; "_install_state"; "_this_file"; "_github_org"; "_released_version"].

(** Names defined in the class body (the names that every object
    inherits are left out; none of them is looked up by the code). *)
Definition class_attrs : list string :=
  ["__init__"; "version"; "__enter__"; "__exit__"; "upload_to_dbfs";
   "upload_to_wsfs"; "_build_wheel"].

(** [inst_dict] holds the attributes created after construction, under
    the names they are stored by. *)
Record State := {
  inst_dict : gmap string pyval;
  fs : node;
  tick : nat;
  trace : list event;
  dbfs : remote;
  workspace : remote;
}.

Definition set_dict (d : gmap string pyval) (σ : State) : State :=
  {| inst_dict := d; fs := fs σ; tick := tick σ; trace := trace σ;
     dbfs := dbfs σ; workspace := workspace σ |}.
Definition set_fs (n : node) (σ : State) : State :=
  {| inst_dict := inst_dict σ; fs := n; tick := tick σ; trace := trace σ;
     dbfs := dbfs σ; workspace := workspace σ |}.
Definition bump (σ : State) : State :=
  {| inst_dict := inst_dict σ; fs := fs σ; tick := S (tick σ);
     trace := trace σ; dbfs := dbfs σ; workspace := workspace σ |}.
Definition log (ev : event) (σ : State) : State :=
  {| inst_dict := inst_dict σ; fs := fs σ; tick := tick σ;
     trace := trace σ ++ [ev]; dbfs := dbfs σ; workspace := workspace σ |}.
Definition get_remote (t : storage) (σ : State) : remote :=
  match t with DBFS => dbfs σ | WSFS => workspace σ end.
Definition set_remote (t : storage) (r : remote) (σ : State) : State :=
  match t with
  | DBFS => {| inst_dict := inst_dict σ; fs := fs σ; tick := tick σ;
               trace := trace σ; dbfs := r; workspace := workspace σ |}
  | WSFS => {| inst_dict := inst_dict σ; fs := fs σ; tick := tick σ;
               trace := trace σ; dbfs := dbfs σ; workspace := r |}
  end.

(** *** Statements: state passing with exceptions *)

(** A statement runs in a state and either yields a value or raises;
    what it did to the state before raising stays done. *)
Definition M (A : Type) : Type := State → result A * State.

Definition ret {A} (a : A) : M A := λ σ, (Ok a, σ).
Definition raise {A} (e : exn) : M A := λ σ, (Raise e, σ).
Definition bind {A B} (m : M A) (k : A → M B) : M B :=
  λ σ, match m σ with
       | (Ok a, σ') => k a σ'
       | (Raise e, σ') => (Raise e, σ')
       end.
(** [try: m except Exception as err: h err] *)
Definition try_except {A} (m : M A) (h : exn → M A) : M A :=
  λ σ, match m σ with
       | (Ok a, σ') => (Ok a, σ')
       | (Raise e, σ') => h e σ'
       end.
Definition lift {A} (r : result A) : M A := λ σ, (r, σ).

Notation "x <~ m ;; k" := (bind m (λ x, k))
  (at level 100, m at next level, right associativity).
Notation "m ;;; k" := (bind m (λ _, k))
  (at level 100, right associativity).

(** *** Primitive statements *)

(** [hasattr(self, name)]; [name] is a string, looked up as it is. *)
Definition hasattr (name : string) : M bool :=
  λ σ, (Ok (bool_decide (name ∈ init_attrs ++ class_attrs)
            || bool_decide (is_Some (inst_dict σ !! name))), σ).

Definition attribute_error (name : string) : exn :=
  Exn AttributeError ("'Wheels' object has no attribute '" +:+ name +:+ "'").

(** [self.<name>] for an attribute created after construction. *)
Definition getattr (name : string) : M pyval :=
  λ σ, match inst_dict σ !! name with
       | Some v => (Ok v, σ)
       | None => (Raise (attribute_error name), σ)
       end.

(** [self.<name> = v] *)
Definition setattr (name : string) (v : pyval) : M unit :=
  λ σ, (Ok tt, set_dict (<[name := v]> (inst_dict σ)) σ).

Definition type_error (what : string) : exn :=
  Exn TypeError ("expected " +:+ what).

Definition as_str (v : pyval) : M string :=
  match v with VStr s => ret s | _ => raise (type_error "str") end.
Definition as_path (v : pyval) : M path :=
  match v with VPath p => ret p | _ => raise (type_error "Path") end.
Definition as_tmp_dir (v : pyval) : M path :=
  match v with VTmpDir p => ret p | _ => raise (type_error "TemporaryDirectory") end.

Definition path_exists (p : path) : M bool :=
  λ σ, (Ok (exists_ p (fs σ)), σ).

Definition emit (ev : event) : M unit := λ σ, (Ok tt, log ev σ).

(** [Path(dir).glob("*" + suffix)], as the list it would yield. *)
Definition glob (dir : path) (suffix : string) : M (list path) :=
  λ σ, (Ok (glob_suffix dir suffix (fs σ)), σ).

(** [repr(l)] of a list of strings *)
Definition repr_list (l : list string) : string :=
  "[" +:+ Str.join ", " (Str.repr <$> l) +:+ "]".

(** [signal.Signals] on Linux: the names of the signal numbers. *)
Definition signal_names : list (Z * string) :=
  [(1, "SIGHUP"); (2, "SIGINT"); (3, "SIGQUIT"); (4, "SIGILL");
   (5, "SIGTRAP"); (6, "SIGABRT"); (7, "SIGBUS"); (8, "SIGFPE");
   (9, "SIGKILL"); (10, "SIGUSR1"); (11, "SIGSEGV"); (12, "SIGUSR2");
   (13, "SIGPIPE"); (14, "SIGALRM"); (15, "SIGTERM"); (16, "SIGSTKFLT");
   (17, "SIGCHLD"); (18, "SIGCONT"); (19, "SIGSTOP"); (20, "SIGTSTP");
   (21, "SIGTTIN"); (22, "SIGTTOU"); (23, "SIGURG"); (24, "SIGXCPU");
   (25, "SIGXFSZ"); (26, "SIGVTALRM"); (27, "SIGPROF"); (28, "SIGWINCH");
   (29, "SIGIO"); (30, "SIGPWR"); (31, "SIGSYS"); (34, "SIGRTMIN");
   (64, "SIGRTMAX")]%Z.

Definition signal_name (n : Z) : option string :=
  snd <$> List.find (λ e, (e.1 =? n)%Z) signal_names.

(** [subprocess.CalledProcessError(rc, argv)] with its [str]: a
    negative status is the number of the signal that ended the child. *)
Definition called_process_error (argv : list string) (rc : Z) : exn :=
  Exn CalledProcessError
    ("Command '" +:+ repr_list argv +:+ "' "
     +:+ (if (rc <? 0)%Z then
            match signal_name (- rc) with
            | Some nm => "died with <Signals." +:+ nm +:+ ": "
                         +:+ pretty (- rc)%Z +:+ ">."
            | None => "died with unknown signal " +:+ pretty (- rc)%Z +:+ "."
            end
          else "returned non-zero exit status " +:+ pretty rc +:+ ".")).

(** An [OSError] that the operating system raises for a path, with
    its [str]: [[Errno n] text: 'path']. *)
Definition os_error (cls : exn_class) (errno : N) (strerror : string)
    (p : path) : exn :=
  Exn cls ("[Errno " +:+ pretty errno +:+ "] " +:+ strerror +:+ ": "
           +:+ Str.repr (as_posix p)).

Definition file_not_found : path → exn :=
  os_error FileNotFoundError 2 "No such file or directory".
Definition file_exists : path → exn :=
  os_error FileExistsError 17 "File exists".
Definition not_a_directory : path → exn :=
  os_error NotADirectoryError 20 "Not a directory".
Definition is_a_directory : path → exn :=
  os_error IsADirectoryError 21 "Is a directory".

(** What [subprocess.run] raises when a stream is to be redirected to
    a descriptor that is not open. *)
Definition bad_file_descriptor : exn :=
  Exn OSError "[Errno 9] Bad file descriptor".

Section WithEnv.
Variable env : Env.
Variable self : Wheels.

(** [subprocess.run(argv, stdout=.., stderr=.., check=..)].
    [subprocess.STDOUT] is the number -2 and has a meaning for [stderr]
    only; given for [stdout] it is taken as a file descriptor, the
    standard output of the child cannot be set up on it, and the call
    raises before the program is run. *)
Definition subprocess_run (argv : list string) (stdout stderr : redirect)
    (check : bool) : M CompletedProcess :=
  λ σ, match stdout with
       | STDOUT =>
           (Raise bad_file_descriptor,
            log (EvRun argv stdout stderr None) (bump σ))
       | _ =>
           match exec env (tick σ) argv (fs σ) with
           | SpawnFailed e =>
               (Raise e, log (EvRun argv stdout stderr None) (bump σ))
           | Exited rc out fs' =>
               let σ' := log (EvRun argv stdout stderr (Some rc))
                             (set_fs fs' (bump σ)) in
               if check && negb (rc =? 0)%Z
               then (Raise (called_process_error argv rc), σ')
               else (Ok {| cp_returncode := rc;
                           cp_stdout := match stdout with
                                        | PIPE => Some out
                                        | _ => None
                                        end |}, σ')
           end
       end.

(** [out.stdout.decode("utf8")] *)
Definition decode_utf8 (o : option captured) : M string :=
  match o with
  | Some (Utf8 text) => ret text
  | Some (NotUtf8 why) => raise (Exn UnicodeDecodeError why)
  | None => raise (Exn AttributeError
                     "'NoneType' object has no attribute 'decode'")
  end.

(** [datetime.datetime.now().strftime("%Y%m%d%H%M%S")] *)
Definition now_stamp : M string :=
  λ σ, (Ok (strftime_YmdHMS (now env (tick σ))), bump σ).

(** [tempfile.TemporaryDirectory()]: a new, empty directory under a
    name that the system picks. *)
Definition TemporaryDirectory : M path :=
  λ σ, let name := mkdtemp env (tick σ) in
       if exists_ name (fs σ)
       then (Raise (Exn FileExistsError
                      "[Errno 17] No usable temporary directory name found"),
             bump σ)
       else match put name (Dir []) (fs σ) with
            | Some n => (Ok name, set_fs n (bump σ))
            | None => (Raise (file_not_found name), bump σ)
            end.

(** [tmp.cleanup()] *)
Definition cleanup (name : path) : M unit :=
  λ σ, (Ok tt, set_fs (remove name (fs σ)) σ).

(** [shutil.copytree(src, dst)]: [dst] must not exist, its missing
    parents are created.  The copy is of the tree as it stands when
    the call starts. *)
Definition copytree (src dst : path) : M unit :=
  λ σ, match lookup src (fs σ) with
       | Some (Dir es) =>
           if exists_ dst (fs σ)
           then (Raise (file_exists dst), σ)
           else match put_parents dst (Dir es) (fs σ) with
                | Some n => (Ok tt, set_fs n σ)
                | None => (Raise (not_a_directory (stuck dst (fs σ))), σ)
                end
       | Some (File _) => (Raise (not_a_directory src), σ)
       | None => (Raise (file_not_found src), σ)
       end.

(** Replace the content of the file [p], creating the file when it
    is absent: what [p.open("w")] does with [content] empty, and what
    [f.write(content)] does on the handle it returns.  The path comes
    from a join with text that the caller chooses (line 115), so it is
    resolved as the operating system resolves it.  A place that cannot
    be reached is reported as missing, also when what bars the way is
    a regular file among the ancestors. *)
Definition write_file (p : path) (content : string) : M unit :=
  λ σ, match resolve p (fs σ) with
       | At q =>
           match lookup q (fs σ) with
           | Some (Dir _) => (Raise (is_a_directory p), σ)
           | _ => match put q (File content) (fs σ) with
                  | Some n => (Ok tt, set_fs n σ)
                  | None => (Raise (file_not_found p), σ)
                  end
           end
       | Missing => (Raise (file_not_found p), σ)
       | NotDirectory => (Raise (not_a_directory p), σ)
       end.

(** [p.open("rb")], read to the end.  A place that cannot be reached
    is reported as missing, also when what bars the way is a regular
    file among the ancestors. *)
Definition open_rb (p : path) : M string :=
  λ σ, match lookup p (fs σ) with
       | Some (File c) => (Ok c, σ)
       | Some (Dir _) => (Raise (is_a_directory p), σ)
       | None => (Raise (file_not_found p), σ)
       end.

(** [next(it)] on the list of what the iterator yields. *)
Definition next {A} (l : list A) : M A :=
  match l with
  | x :: _ => ret x
  | [] => raise (Exn StopIteration "")
  end.

(** [self._ws.dbfs.mkdirs(dir)] and [self._ws.workspace.mkdirs(dir)] *)
Definition remote_mkdirs (t : storage) (dir : string) : M unit :=
  λ σ, let r := get_remote t σ in
       (Ok tt, log (EvMkdirs t dir)
                 (set_remote t {| r_dirs := {[dir]} ∪ r_dirs r;
                                  r_files := r_files r |} σ)).

(** [upload(dest, f, overwrite=.., format=..)] on either store *)
Definition remote_upload (t : storage) (dest content : string)
    (overwrite : bool) (format : option string) : M unit :=
  λ σ, let r := get_remote t σ in
       let σ' := log (EvUpload t dest content overwrite format) σ in
       if bool_decide (is_Some (r_files r !! dest)) && negb overwrite
       then (Raise (Exn DatabricksError (dest +:+ " already exists")), σ')
       else (Ok tt, set_remote t {| r_dirs := r_dirs r;
                                    r_files := <[dest := content]> (r_files r) |} σ').

(** *** The methods *)

Definition git_describe_argv : list string := ["git"; "describe"; "--tags"].

(** The message of the error raised when the version cannot be
    computed (lines 63-68). *)
Definition cannot_determine (org prod err : string) : string :=
  "Cannot determine unreleased version. Please report this error "
  +:+ "message that you see on https://github.com/" +:+ org +:+ "/"
  +:+ prod +:+ "/issues/new. "
  +:+ "Meanwhile, download, unpack, and install the latest released version from "
  +:+ "https://github.com/" +:+ org +:+ "/" +:+ prod
  +:+ "/releases. Original error is: " +:+ err.

(** [dv.pre_release.split("-")[0] if dv.pre_release else None] *)
Definition new_commits_of (pre : option string) : option string :=
  match pre with
  | Some (String _ _ as p) => Some (hd "" (Str.split "-" p))
  | _ => None
  end.

(** Lines 52-56: the string composed from the parsed tag and the
    stamp. *)
Definition semver_and_pep0440 (dv : SemVer.t) (datestamp : string) : string :=
  let new_commits := new_commits_of (SemVer.pre_release dv) in
  let bump_patch := (SemVer.patch dv + 1)%N in
  pretty (SemVer.major dv) +:+ "." +:+ pretty (SemVer.minor dv) +:+ "."
  +:+ pretty bump_patch +:+ "+" +:+ Str.of_optional new_commits
  +:+ datestamp.

(** The [try] block of [version] (lines 47-60).  The assignment to
    [self.__version] stands in the class body, so it stores under
    the mangled name. *)
Definition version_try : M string :=
  out <~ subprocess_run git_describe_argv PIPE Inherit true ;;
  git_detached_version <~ decode_utf8 (cp_stdout out) ;;
  dv <~ lift (SemVer.parse git_detached_version) ;;
  datestamp <~ now_stamp ;;
  let composed := semver_and_pep0440 dv datestamp in
  lift (SemVer.parse composed) ;;;
  setattr (mangle "Wheels" "__version") (VStr composed) ;;;
  ret composed.

(** The [except] clause of [version] (lines 61-69). *)
Definition version_except (err : exn) : M string :=
  let product := product (_install_state self) in
  raise (Exn OSError
           (cannot_determine (_github_org self) product (exn_str err))).

(** [Wheels.version].  The name tested by [hasattr] is a string
    literal and is looked up as written; the attribute read on line
    41 is an identifier and is mangled. *)
Definition version : M string :=
  cached <~ hasattr "__version" ;;
  if cached then v <~ getattr (mangle "Wheels" "__version") ;; as_str v
  else
    let project_root := find_project_root env in
    managed <~ path_exists (joinpath project_root ".git/config") ;;
    if negb managed then ret (_released_version self)
    else try_except version_try version_except.

Definition pip_wheel_argv (tmp_dir : path) (project_root : path)
  : list string :=
  [sys_executable env; "-m"; "pip"; "wheel"; "--no-deps"; "--wheel-dir";
   as_posix tmp_dir; as_posix project_root].

Definition about_file (prod : string) : string :=
  "src/databricks/labs/" +:+ prod +:+ "/__about__.py".

Definition version_statement (v : string) : string :=
  "__version__ = " +:+ Str.dquote +:+ v +:+ Str.dquote.

(** [Wheels._build_wheel], lines 103-126: everything up to the
    return of the packaging tool.  [tmp_dir] is the string of an
    absolute path, the name of the temporary directory when
    [__enter__] calls; the model keeps it parsed, so [Path(tmp_dir)] is
    [tmp_dir] and the string is [as_posix tmp_dir].  Opening the
    version file for writing (line 116) empties it before the text
    to write is computed (line 117). *)
Definition run_packaging_tool (tmp_dir : path) (verbose : bool)
  : M CompletedProcess :=
  let '(stdout, stderr) :=
    if negb verbose then (DEVNULL, DEVNULL) else (STDOUT, STDOUT) in
  let project_root := find_project_root env in
  v <~ version ;;
  let is_non_released_version := Str.mem "+" v in
  managed <~ path_exists (joinpath (joinpath project_root ".git") "config") ;;
  project_root <~
    (if managed && is_non_released_version then
       let tmp_dir_path := joinpath tmp_dir "working-copy" in
       copytree project_root tmp_dir_path ;;;
       let version_file :=
         joinpath tmp_dir_path (about_file (product (_install_state self))) in
       write_file version_file "" ;;;
       v' <~ version ;;
       write_file version_file (version_statement v') ;;;
       ret tmp_dir_path
     else ret project_root) ;;
  emit (EvLog "DEBUG" ("Building wheel for " +:+ as_posix project_root
                       +:+ " in " +:+ as_posix tmp_dir)) ;;;
  subprocess_run (pip_wheel_argv tmp_dir project_root) stdout stderr true.

(** [Wheels._build_wheel]: the lines above, then line 128. *)
Definition _build_wheel (tmp_dir : path) (verbose : bool) : M path :=
  run_packaging_tool tmp_dir verbose ;;;
  wheels <~ glob tmp_dir ".whl" ;;
  next wheels.

(** [Wheels.__enter__]; the method returns [self], which the model
    leaves implicit. *)
Definition __enter__ : M unit :=
  tmp <~ TemporaryDirectory ;;
  setattr "_tmp_dir" (VTmpDir tmp) ;;;
  tmp_dir <~ (v <~ getattr "_tmp_dir" ;; as_tmp_dir v) ;;
  wheel <~ _build_wheel tmp_dir false ;;
  setattr "_local_wheel" (VPath wheel) ;;;
  local_wheel <~ (v <~ getattr "_local_wheel" ;; as_path v) ;;
  setattr "_remote_wheel"
    (VStr (install_folder (_install_state self) +:+ "/wheels/"
           +:+ name local_wheel)) ;;;
  remote_wheel <~ (v <~ getattr "_remote_wheel" ;; as_str v) ;;
  setattr "_remote_dir_name" (VStr (dirname remote_wheel)) ;;;
  ret tt.

(** [Wheels.__exit__]; it returns [None], so an exception of the
    body is not swallowed. *)
Definition __exit__ : M unit :=
  tmp <~ (v <~ getattr "_tmp_dir" ;; as_tmp_dir v) ;;
  cleanup tmp.

(** [Wheels.upload_to_dbfs] *)
Definition upload_to_dbfs : M string :=
  local_wheel <~ (v <~ getattr "_local_wheel" ;; as_path v) ;;
  f <~ open_rb local_wheel ;;
  remote_dir_name <~ (v <~ getattr "_remote_dir_name" ;; as_str v) ;;
  remote_mkdirs DBFS remote_dir_name ;;;
  remote_wheel <~ (v <~ getattr "_remote_wheel" ;; as_str v) ;;
  emit (EvLog "INFO" ("Uploading wheel to dbfs:" +:+ remote_wheel)) ;;;
  remote_wheel <~ (v <~ getattr "_remote_wheel" ;; as_str v) ;;
  remote_upload DBFS remote_wheel f true None ;;;
  remote_wheel <~ (v <~ getattr "_remote_wheel" ;; as_str v) ;;
  ret remote_wheel.

(** [Wheels.upload_to_wsfs] *)
Definition upload_to_wsfs : M string :=
  local_wheel <~ (v <~ getattr "_local_wheel" ;; as_path v) ;;
  f <~ open_rb local_wheel ;;
  remote_dir_name <~ (v <~ getattr "_remote_dir_name" ;; as_str v) ;;
  remote_mkdirs WSFS remote_dir_name ;;;
  remote_wheel <~ (v <~ getattr "_remote_wheel" ;; as_str v) ;;
  emit (EvLog "INFO" ("Uploading wheel to /Workspace" +:+ remote_wheel)) ;;;
  remote_wheel <~ (v <~ getattr "_remote_wheel" ;; as_str v) ;;
  remote_upload WSFS remote_wheel f true (Some "AUTO") ;;;
  remote_wheel <~ (v <~ getattr "_remote_wheel" ;; as_str v) ;;
  ret remote_wheel.

(** [with Wheels(...) as w: body].  [__exit__] runs when the body
    ends, normally or not, and not when [__enter__] raises. *)
Definition with_ {A} (body : M A) : M A :=
  λ σ, match __enter__ σ with
       | (Raise e, σ1) => (Raise e, σ1)
       | (Ok _, σ1) =>
           match body σ1 with
           | (Ok a, σ2) =>
               match __exit__ σ2 with
               | (Ok _, σ3) => (Ok a, σ3)
               | (Raise e, σ3) => (Raise e, σ3)
               end
           | (Raise e, σ2) =>
               match __exit__ σ2 with
               | (Ok _, σ3) => (Raise e, σ3)
               | (Raise e', σ3) => (Raise e', σ3)
               end
           end
       end.

End WithEnv.

(** The state right after [Wheels(ws, install_state, released)]: no
    attribute beyond the constructor's, nothing done yet. *)
Definition init (root : node) : State :=
  {| inst_dict := ∅; fs := root; tick := 0; trace := [];
     dbfs := {| r_dirs := ∅; r_files := ∅ |};
     workspace := {| r_dirs := ∅; r_files := ∅ |} |}.

End Wheels.

(* ===================================================================== *)
(** ** A project to run the methods on *)
(* ===================================================================== *)

(** A checkout at [/repo] with the layout the builder expects, a system
    temporary directory at [/tmp], a clock that reads 2024-01-01
    12:00:00 plus one second per logical step, and child processes that
    behave as the two tools do: the source-control tool prints what it
    is told to, the packaging tool writes the files it is told to into
    the wheel directory. *)
Module Scenario.
Import Fs Wheels.

Definition state : InstallState :=
  {| product := "blueprint"; install_folder := "/Users/me/.blueprint" |}.

Definition wheels : Wheels :=
  {| _install_state := state; _released_version := "0.1.0";
     _github_org := "databrickslabs" |}.

Definition sources : list (string * node) :=
  [("src", Dir [("databricks", Dir [("labs", Dir [("blueprint", Dir
      [("__about__.py", File (version_statement "0.1.0"))])])])]);
   ("pyproject.toml", File "[project]")].

Definition checkout : node :=
  Dir [("repo", Dir ((".git", Dir [("config", File "[core]")]) :: sources));
       ("tmp", Dir [])].

Definition release_archive : node :=
  Dir [("repo", Dir sources); ("tmp", Dir [])].

Definition tmp : path := ["tmp"; "tmpk3v9x1"].

Definition clock (t : nat) : datetime :=
  {| year := 2024; month := 1; day := 1; hour := 12; minute := 0;
     second := N.of_nat t |}.

(** The packaging tool: it writes [outputs] into the directory named
    after [--wheel-dir] and exits with status 0. *)
Definition pip (outputs : list (string * node)) (argv : list string)
    (n : node) : proc_outcome :=
  let dir := of_string (nth 6 argv "") in
  match lookup dir n with
  | Some (Dir es) =>
      match put dir (Dir (es ++ outputs)) n with
      | Some n' => Exited 0 (Utf8 "") n'
      | None => Exited 1 (Utf8 "") n
      end
  | _ => Exited 1 (Utf8 "") n
  end.

Definition tools (describe : proc_outcome) (outputs : list (string * node))
    (t : nat) (argv : list string) (n : node) : proc_outcome :=
  if decide (argv = git_describe_argv) then
    match describe with
    | Exited rc out _ => Exited rc out n
    | SpawnFailed e => SpawnFailed e
    end
  else pip outputs argv n.

Definition one_wheel : list (string * node) :=
  [("blueprint-1.2.4-py3-none-any.whl", File "PK")].

(** A tool run that leaves two artifacts, and one that leaves none. *)
Definition two_wheels : list (string * node) :=
  [("blueprint-1.2.4-py3-none-any.whl", File "PK");
   ("blueprint-1.2.3-py3-none-any.whl", File "PK-old")].
Definition no_wheel : list (string * node) :=
  [("build.log", File "done")].

Definition env (describe : proc_outcome) (outputs : list (string * node)) : Env :=
  {| find_project_root := ["repo"];
     sys_executable := "/usr/bin/python3";
     exec := tools describe outputs;
     now := clock;
     mkdtemp := λ _, tmp |}.

(** What [git describe --tags] prints four commits after tag [v1.2.3],
    and on the tag itself. *)
Definition after_tag : proc_outcome :=
  Exited 0 (Utf8 ("v1.2.3-4-gabcdef0" +:+ Str.newline)) (Dir []).
Definition on_tag : proc_outcome :=
  Exited 0 (Utf8 ("v1.2.3" +:+ Str.newline)) (Dir []).
Definition no_tags : proc_outcome :=
  Exited 128 (Utf8 "") (Dir []).

(** Tags that the parser of the library takes and the standard grammar
    does not: one without a patch number, and one whose pre-release
    starts with a digit of another script (U+0663, ARABIC-INDIC DIGIT
    THREE, two bytes in UTF-8). *)
Definition after_short_tag : proc_outcome :=
  Exited 0 (Utf8 ("v1.2-4-gabcdef0" +:+ Str.newline)) (Dir []).
Definition arabic_three : string := String "217"%char (String "163"%char "").
Definition after_foreign_tag : proc_outcome :=
  Exited 0 (Utf8 ("v1.2.3-" +:+ arabic_three +:+ "a-4-gabcdef0" +:+ Str.newline))
    (Dir []).

(** An instance for a product whose name climbs: joined below
    [<tmp>/working-copy/src/databricks/labs] it leads out of the copy
    and to the version file of the project. *)
Definition climbing : Wheels :=
  {| _install_state :=
       {| product := "../../../../../../repo/src/databricks/labs/blueprint";
          install_folder := "/Users/me/.blueprint" |};
     _released_version := "0.1.0";
     _github_org := "databrickslabs" |}.

(** The version file of the project and of the copy made of it. *)
Definition copied_about : path :=
  tmp ++ ["working-copy"; "src"; "databricks"; "labs"; "blueprint";
          "__about__.py"].
Definition original_about : path :=
  ["repo"; "src"; "databricks"; "labs"; "blueprint"; "__about__.py"].

End Scenario.

(* ===================================================================== *)
(** ** Notions that the properties are stated with *)
(* ===================================================================== *)

Module Notions.
Import Fs Wheels.

(** *** Relations between the state before and the state after *)

(** [m] takes every state to a state related to it by [R], whether it
    returns or raises. *)
Definition respects (R : State → State → Prop) {A} (m : M A) : Prop :=
  ∀ σ, R σ (m σ).2.

(** The attribute [k] of the instance is as it was. *)
Definition same_attr (k : string) (σ σ' : State) : Prop :=
  inst_dict σ' !! k = inst_dict σ !! k.

(** The trace has grown by events that satisfy [P]. *)
Definition extends (P : event → Prop) (σ σ' : State) : Prop :=
  ∃ evs, trace σ' = trace σ ++ evs ∧ Forall P evs.

(** What stands at [root] is as it was. *)
Definition same_tree (root : path) (σ σ' : State) : Prop :=
  lookup root (fs σ') = lookup root (fs σ).

(** Child processes that leave what stands at [root] as it is. *)
Definition exec_leaves (root : path) (env : Env) : Prop :=
  ∀ t argv n rc out n',
    exec env t argv n = Exited rc out n' → lookup root n' = lookup root n.

(** What is left to show for a method to respect [R]: that the
    statements which change the state do.  [ok] says where the builder
    may write, [ok_run] which child processes may be started and with
    which redirections. *)
Record build_steps (R : State → State → Prop) (ok : path → Prop)
    (ok_run : list string → redirect → redirect → Prop) (env : Env) : Prop := {
  bs_setattr_version v : respects R (setattr (mangle "Wheels" "__version") v);
  bs_run argv o e c : ok_run argv o e → respects R (subprocess_run env argv o e c);
  bs_git : ok_run git_describe_argv PIPE Inherit;
  bs_now : respects R (now_stamp env);
  bs_log level msg : respects R (emit (EvLog level msg));
  bs_copytree src dst : ok dst → respects R (copytree src dst);
  bs_write_file p c : ok p → respects R (write_file p c);
}.

Record upload_steps (R : State → State → Prop) : Prop := {
  us_log level msg : respects R (emit (EvLog level msg));
  us_mkdirs t d : respects R (remote_mkdirs t d);
  us_upload t d c o f : respects R (remote_upload t d c o f);
}.

Record scope_steps (R : State → State → Prop) (ok : path → Prop)
    (ok_run : list string → redirect → redirect → Prop) (env : Env) : Prop := {
  ss_build : build_steps R ok ok_run env;
  ss_uploads : upload_steps R;
  ss_pip tmp root : ok_run (pip_wheel_argv env tmp root) DEVNULL DEVNULL;
  ss_tmp : respects R (TemporaryDirectory env);
  ss_tmp_ok σ : ok (mkdtemp env (tick σ));
  ss_cleanup p : respects R (cleanup p);
  ss_setattr_tmp_dir v : respects R (setattr "_tmp_dir" v);
  ss_setattr_local_wheel v : respects R (setattr "_local_wheel" v);
  ss_setattr_remote_wheel v : respects R (setattr "_remote_wheel" v);
  ss_setattr_remote_dir_name v : respects R (setattr "_remote_dir_name" v);
}.

Arguments bs_setattr_version {R ok ok_run env}.
Arguments bs_run {R ok ok_run env}.
Arguments bs_git {R ok ok_run env}.
Arguments bs_now {R ok ok_run env}.
Arguments bs_log {R ok ok_run env}.
Arguments bs_copytree {R ok ok_run env}.
Arguments bs_write_file {R ok ok_run env}.
Arguments us_log {R}.
Arguments us_mkdirs {R}.
Arguments us_upload {R}.
Arguments ss_build {R ok ok_run env}.
Arguments ss_uploads {R ok ok_run env}.
Arguments ss_pip {R ok ok_run env}.
Arguments ss_tmp {R ok ok_run env}.
Arguments ss_tmp_ok {R ok ok_run env}.
Arguments ss_cleanup {R ok ok_run env}.
Arguments ss_setattr_tmp_dir {R ok ok_run env}.
Arguments ss_setattr_local_wheel {R ok ok_run env}.
Arguments ss_setattr_remote_wheel {R ok ok_run env}.
Arguments ss_setattr_remote_dir_name {R ok ok_run env}.

(** *** Versions and messages *)

(** The characters of a composed version: alphanumerics, the dot and
    the plus sign. *)
Definition plain (c : ascii) : bool :=
  Str.is_alnum c || bool_decide (c = "."%char) || bool_decide (c = "+"%char).

Definition issues_url (org prod : string) : string :=
  "https://github.com/" +:+ org +:+ "/" +:+ prod +:+ "/issues/new".

Definition releases_url (org prod : string) : string :=
  "https://github.com/" +:+ org +:+ "/" +:+ prod +:+ "/releases".

(** The two parts of the string composed on line 56: what stands
    before the [+] and what stands after it. *)
Definition release_part (dv : SemVer.t) : string :=
  pretty (SemVer.major dv) +:+ "." +:+ pretty (SemVer.minor dv) +:+ "."
  +:+ pretty (SemVer.patch dv + 1)%N.

Definition local_part (dv : SemVer.t) (datestamp : string) : string :=
  Str.of_optional (new_commits_of (SemVer.pre_release dv)) +:+ datestamp.

(** *** The builder and the uploads *)

(** [next(glob)] on the list that the directory yields. *)
Definition pick (l : list path) : result path :=
  match l with
  | w :: _ => Ok w
  | [] => Raise (Exn StopIteration "")
  end.

Definition upload (t : storage) : M string :=
  match t with
  | DBFS => upload_to_dbfs
  | WSFS => upload_to_wsfs
  end.

Definition upload_log (t : storage) (remote : string) : event :=
  match t with
  | DBFS => EvLog "INFO" ("Uploading wheel to dbfs:" +:+ remote)
  | WSFS => EvLog "INFO" ("Uploading wheel to /Workspace" +:+ remote)
  end.

Definition upload_format (t : storage) : option string :=
  match t with
  | DBFS => None
  | WSFS => Some "AUTO"
  end.

(** The state after one upload to [t]. *)
Definition uploaded (t : storage) (dir remote content : string)
    (σ : State) : State :=
  let r := get_remote t σ in
  let σ1 := log (EvMkdirs t dir)
              (set_remote t {| r_dirs := {[dir]} ∪ r_dirs r;
                               r_files := r_files r |} σ) in
  let σ2 := log (upload_log t remote) σ1 in
  let r2 := get_remote t σ2 in
  set_remote t {| r_dirs := r_dirs r2;
                  r_files := <[remote := content]> (r_files r2) |}
    (log (EvUpload t remote content true (upload_format t)) σ2).

(** What a caller can do with an instance. *)
Inductive public_op :=
| Enter | Exit | Version | UploadToDbfs | UploadToWsfs.

Section instance.
Variable env : Env.
Variable self : Wheels.

(** Where the resolver looks for source-control metadata. *)
Definition git_config : path :=
  joinpath (find_project_root env) ".git/config".

(** The remote path of an artifact (line 74). *)
Definition remote_path (wheel : path) : string :=
  install_folder (_install_state self) +:+ "/wheels/" +:+ name wheel.

(** [__enter__] without the reads of what it has just bound. *)
Definition bind_attrs (wheel : path) : M unit :=
  setattr "_local_wheel" (VPath wheel) ;;;
  setattr "_remote_wheel" (VStr (remote_path wheel)) ;;;
  setattr "_remote_dir_name" (VStr (dirname (remote_path wheel))) ;;;
  ret tt.

Definition enter_direct : M unit :=
  tmp <~ TemporaryDirectory env ;;
  setattr "_tmp_dir" (VTmpDir tmp) ;;;
  wheel <~ _build_wheel env self tmp false ;;
  bind_attrs wheel.

(** An instance that holds an artifact which is a regular file. *)
Definition holds_artifact (wheel : path) (content : string) (σ : State) : Prop :=
  inst_dict σ !! "_local_wheel" = Some (VPath wheel)
  ∧ inst_dict σ !! "_remote_wheel" = Some (VStr (remote_path wheel))
  ∧ inst_dict σ !! "_remote_dir_name"
    = Some (VStr (dirname (remote_path wheel)))
  ∧ lookup wheel (fs σ) = Some (File content).

(** The state after one public call, whether it returns or raises. *)
Definition after (op : public_op) (σ : State) : State :=
  match op with
  | Enter => (__enter__ env self σ).2
  | Exit => (__exit__ σ).2
  | Version => (version env self σ).2
  | UploadToDbfs => (upload_to_dbfs σ).2
  | UploadToWsfs => (upload_to_wsfs σ).2
  end.

Definition after_all (ops : list public_op) (σ : State) : State :=
  foldl (λ s op, after op s) σ ops.

(** A child process that is either the source-control query or the
    packaging tool with both of its output streams discarded. *)
Definition quiet (ev : event) : Prop :=
  match ev with
  | EvRun argv out err _ =>
      argv = git_describe_argv
      ∨ ((∃ tmp root, argv = pip_wheel_argv env tmp root)
         ∧ out = DEVNULL ∧ err = DEVNULL)
  | _ => True
  end.
End instance.
End Notions.

(* ===================================================================== *)
(** ** The stages of a build *)
(* ===================================================================== *)

(** [_build_wheel] up to the return of the packaging tool, in two
    parts: the choice of the project root that the tool is started on
    (lines 108-119), and the start of the tool (lines 120-126); with the
    notions that the facts about them are stated in. *)
Module Coverage.
Import Fs Wheels Notions.

(** [exec] on [argv] leaves what stands at [root] as it is. *)
Definition tool_keeps (root : path) (env : Env) (argv : list string) : Prop :=
  ∀ t n rc out n',
    exec env t argv n = Exited rc out n' → lookup root n' = lookup root n.

(** [exec] on [argv] changes no file at all. *)
Definition read_only (env : Env) (argv : list string) : Prop :=
  ∀ t n rc out n', exec env t argv n = Exited rc out n' → n' = n.

(** The local file system is as it was. *)
Definition same_fs (σ σ' : State) : Prop := fs σ' = fs σ.

(** The store that an upload to [t] does not address. *)
Definition other_store (t : storage) : storage :=
  match t with DBFS => WSFS | WSFS => DBFS end.

(** What an upload to [t] may do: nothing to the local files, the
    instance and the other store, and nothing but additions and
    overwriting on the store [t]. *)
Definition keeps_but_store (t : storage) (σ σ' : State) : Prop :=
  fs σ' = fs σ
  ∧ inst_dict σ' = inst_dict σ
  ∧ get_remote (other_store t) σ' = get_remote (other_store t) σ
  ∧ r_dirs (get_remote t σ) ⊆ r_dirs (get_remote t σ')
  ∧ ∀ k, is_Some (r_files (get_remote t σ) !! k)
         → is_Some (r_files (get_remote t σ') !! k).

(** The redirection that [_build_wheel] passes for both streams
    (lines 103-107). *)
Definition stream (verbose : bool) : redirect :=
  if verbose then STDOUT else DEVNULL.

Section builder.
Variable env : Env.
Variable self : Wheels.

(** Where the builder puts the copy, and the version file in it. *)
Definition working_copy (tmp_dir : path) : path := joinpath tmp_dir "working-copy".
Definition copy_about (tmp_dir : path) : path :=
  joinpath (working_copy tmp_dir) (about_file (product (_install_state self))).

(** Lines 108-119 of [_build_wheel]: the project root that the tool is
    started on. *)
Definition stage_project (tmp_dir : path) : M path :=
  let project_root := find_project_root env in
  v <~ version env self ;;
  let is_non_released_version := Str.mem "+" v in
  managed <~ path_exists (joinpath (joinpath project_root ".git") "config") ;;
  if managed && is_non_released_version then
    let tmp_dir_path := joinpath tmp_dir "working-copy" in
    copytree project_root tmp_dir_path ;;;
    let version_file :=
      joinpath tmp_dir_path (about_file (product (_install_state self))) in
    write_file version_file "" ;;;
    v' <~ version env self ;;
    write_file version_file (version_statement v') ;;;
    ret tmp_dir_path
  else ret project_root.

(** Lines 120-126: the log line and the tool. *)
Definition start_tool (tmp_dir : path) (verbose : bool) (project_root : path)
  : M CompletedProcess :=
  emit (EvLog "DEBUG" ("Building wheel for " +:+ as_posix project_root
                       +:+ " in " +:+ as_posix tmp_dir)) ;;;
  subprocess_run env (pip_wheel_argv env tmp_dir project_root)
    (stream verbose) (stream verbose) true.
End builder.
End Coverage.

(* ===================================================================== *)
(** ** Facts about strings *)
(* ===================================================================== *)

Module StrFacts.
Import Str.

Lemma append_String c a b : String c a +:+ b = String c (a +:+ b).
Proof. reflexivity. Qed.

Lemma append_nil_r s : s +:+ "" = s.
Proof. induction s as [|c s IH]; [done|]. by rewrite append_String, IH. Qed.

Lemma append_assoc a b c : (a +:+ b) +:+ c = a +:+ (b +:+ c).
Proof. induction a as [|x a IH]; [done|]. by rewrite !append_String, IH. Qed.

Lemma contains_end a sub : contains sub (a +:+ sub).
Proof. exists a, "". by rewrite append_nil_r. Qed.

Lemma contains_app_l p sub s : contains sub s → contains sub (p +:+ s).
Proof. intros (a & b & ->). exists (p +:+ a), b. by rewrite append_assoc. Qed.

Section all.
Context (P Q : ascii → bool).

Lemma all_app a b : all P (a +:+ b) = all P a && all P b.
Proof.
  induction a as [|c a IH]; [done|].
  rewrite append_String. simpl. rewrite IH. by destruct (P c).
Qed.

Lemma all_impl s :
  (∀ c, P c = true → Q c = true) → all P s = true → all Q s = true.
Proof.
  intros HPQ. induction s as [|c s IH]; [done|]. simpl.
  intros [Hc Hs]%andb_prop. rewrite (HPQ c Hc). by apply IH.
Qed.

Lemma all_mem c s : all P s = true → P c = false → mem c s = false.
Proof.
  intros Hs Hc. induction s as [|d s IH]; [done|]. simpl in *.
  apply andb_prop in Hs as [Hd Hs].
  destruct (decide (d = c)) as [->|]; [congruence | auto].
Qed.
End all.

Lemma all_and P Q s :
  all P s = true → all Q s = true → all (λ c, P c && Q c) s = true.
Proof.
  induction s as [|c s IH]; [done|]. simpl.
  intros [-> ?]%andb_prop [-> ?]%andb_prop. by apply IH.
Qed.

(** ** Cutting at a character *)

Lemma cut_spec c s a b :
  cut c s = (a, b) →
  mem c a = false
  ∧ match b with
    | Some b' => s = a +:+ String c b'
    | None => s = a
    end.
Proof.
  revert a b. induction s as [|d s IH]; intros a b; simpl.
  - by intros [= <- <-].
  - destruct (decide (d = c)) as [->|Hne].
    + by intros [= <- <-].
    + destruct (cut c s) as [a' b'] eqn:Hcut. intros [= <- <-].
      destruct (IH _ _ eq_refl) as [Hm Hs]. split.
      * simpl. by rewrite decide_False.
      * destruct b'; by rewrite Hs.
  Qed.

Lemma cut_absent c s : mem c s = false → cut c s = (s, None).
Proof.
  induction s as [|d s IH]; [done|]. simpl.
  destruct (decide (d = c)); [done|]. intros H. by rewrite (IH H).
Qed.

Lemma cut_all P c s a b :
  cut c s = (a, b) → all P s = true →
  all P a = true ∧ match b with Some b' => all P b' = true | None => True end.
Proof.
  intros [_ Hs]%cut_spec Hall. destruct b as [b'|]; subst s.
  - rewrite all_app in Hall. simpl in Hall.
    apply andb_prop in Hall as [? [? ?]%andb_prop]. done.
  - done.
Qed.

(** ** Splitting *)

Lemma split_by_cons sep s : ∃ seg rest, split_by sep s = seg :: rest.
Proof.
  induction s as [|c s (seg & rest & IH)]; simpl; [by eauto|].
  destruct (sep c); [by eauto|]. rewrite IH. by eauto.
Qed.

(** Separators that agree on the characters of [s] split it alike. *)
Lemma split_by_ext f g s :
  all (λ c, bool_decide (f c = g c)) s = true → split_by f s = split_by g s.
Proof.
  induction s as [|c s IH]; [done|]. simpl.
  intros [Hc Hs]%andb_prop. apply bool_decide_eq_true in Hc.
  rewrite <-Hc, (IH Hs). done.
Qed.

(** The segments are made of characters of [s], none a separator. *)
Lemma split_by_all P sep s :
  all P s = true →
  Forall (λ seg, all (λ c, P c && negb (sep c)) seg = true) (split_by sep s).
Proof.
  induction s as [|c s IH]; simpl.
  - intros _. by constructor.
  - intros [Hc Hs]%andb_prop. specialize (IH Hs).
    destruct (sep c) eqn:Hsep.
    + by constructor.
    + destruct (split_by_cons sep s) as (seg & rest & Heq).
      rewrite Heq in *. inversion IH; subst. constructor; [|done].
      simpl. by rewrite Hc, Hsep.
Qed.

(** When every segment is made of [P] characters, the string is made
    of [P] characters and separators. *)
Lemma split_by_chars P sep s :
  Forall (λ seg, all P seg = true) (split_by sep s) →
  all (λ c, P c || sep c) s = true.
Proof.
  induction s as [|c s IH]; [done|]. simpl.
  destruct (sep c) eqn:Hsep.
  - intros [_ H]%Forall_cons. rewrite orb_true_r. by apply IH.
  - destruct (split_by_cons sep s) as (seg & rest & Heq). rewrite Heq in *.
    intros [Hseg Hrest]%Forall_cons. simpl in Hseg.
    apply andb_prop in Hseg as [Hc Hseg]. rewrite Hc. simpl.
    apply IH. by constructor.
Qed.

Lemma forallb_Forall_all P (ok : string → bool) l :
  (∀ seg, ok seg = true → all P seg = true) →
  forallb ok l = true → Forall (λ seg, all P seg = true) l.
Proof.
  intros Hok. induction l as [|x l IH]; simpl; [by constructor|].
  intros [Hx Hl]%andb_prop. constructor; auto.
Qed.

(** ** The decimal numerals of [pretty] *)

Lemma pretty_N_go_digits x s :
  all is_digit s = true → all is_digit (pretty_N_go x s) = true.
Proof.
  revert s. induction (N.lt_wf_0 x) as [x _ IH]; intros s Hs.
  destruct (decide (x = 0)%N) as [->|Hx]; [by rewrite pretty_N_go_0|].
  rewrite pretty_N_go_step by lia. apply IH; [apply N.div_lt; lia|].
  simpl. rewrite Hs. unfold pretty_N_char. by repeat case_match.
Qed.

Lemma pretty_N_go_nonempty x s : s ≠ "" → pretty_N_go x s ≠ "".
Proof.
  revert s. induction (N.lt_wf_0 x) as [x _ IH]; intros s Hs.
  destruct (decide (x = 0)%N) as [->|Hx]; [by rewrite pretty_N_go_0|].
  rewrite pretty_N_go_step by lia. apply IH; [apply N.div_lt; lia|done].
Qed.

Lemma pretty_N_digits (n : N) : all is_digit (pretty n) = true.
Proof.
  unfold pretty, pretty_N. case_decide; [done|]. by apply pretty_N_go_digits.
Qed.

Lemma pretty_N_nonempty (n : N) : pretty n ≠ "".
Proof.
  unfold pretty, pretty_N. case_decide; [done|].
  rewrite pretty_N_go_step by lia. by apply pretty_N_go_nonempty.
Qed.

(** ** The end anchor *)

Lemma chomp_id s :
  all (λ c, negb (bool_decide (c = "010"%char))) s = true → SemVer.chomp s = s.
Proof.
  induction s as [|c s IH]; [done|]. simpl.
  intros [Hc Hs]%andb_prop. apply negb_true_iff, bool_decide_eq_false in Hc.
  destruct s as [|d s]; [by rewrite decide_False|]. by rewrite (IH Hs).
Qed.

(** A string that ends with something other than a line feed is
    matched up to its end. *)
Lemma chomp_app a b :
  b ≠ "" → SemVer.chomp b = b → SemVer.chomp (a +:+ b) = a +:+ b.
Proof.
  intros Hb Hc. induction a as [|c a IH]; [done|].
  rewrite append_String. cbn [SemVer.chomp].
  destruct (a +:+ b) as [|d r] eqn:Hab; [by destruct a, b|]. by rewrite IH.
Qed.

(** ** Strings put together *)

Lemma append_one c s : String c "" +:+ s = String c s.
Proof. reflexivity. Qed.

Lemma mem_app c a b : mem c (a +:+ b) = mem c a || mem c b.
Proof.
  induction a as [|d a IH]; [done|]. rewrite append_String. simpl.
  by destruct (decide (d = c)).
Qed.

Lemma cut_app c a b : mem c a = false → cut c (a +:+ String c b) = (a, Some b).
Proof.
  induction a as [|d a IH]; simpl; [by rewrite decide_True|].
  case_decide; [done|]. intros Ha. by rewrite IH.
Qed.

Lemma split_by_absent sep s :
  all (λ c, negb (sep c)) s = true → split_by sep s = [s].
Proof.
  induction s as [|c s IH]; [done|]. simpl.
  intros [Hc Hs]%andb_prop. apply negb_true_iff in Hc. by rewrite Hc, IH.
Qed.

Lemma split_by_app sep a c b :
  all (λ c, negb (sep c)) a = true → sep c = true →
  split_by sep (a +:+ String c b) = a :: split_by sep b.
Proof.
  intros Ha Hc. induction a as [|d a IH]; simpl; [by rewrite Hc|].
  simpl in Ha. apply andb_prop in Ha as [Hd Ha]. apply negb_true_iff in Hd.
  by rewrite Hd, IH.
Qed.

(** The first piece of a split holds no separator. *)
Lemma split_by_hd sep s :
  all (λ c, negb (sep c)) (hd "" (split_by sep s)) = true.
Proof.
  assert (all (λ _, true) s = true) as Ht by (by induction s).
  pose proof (split_by_all (λ _, true) sep s Ht) as H.
  destruct (split_by sep s) as [|seg rest]; [done|].
  by apply Forall_cons in H as [H _].
Qed.

Lemma digits_no_dot s :
  all is_digit s = true → all (λ c, negb (is_char "." c)) s = true.
Proof.
  apply all_impl. intros c Hc. unfold is_char. apply negb_true_iff.
  apply bool_decide_eq_false. by intros ->.
Qed.

(** A number is printed without a leading zero. *)
Lemma pretty_N_go_leading x s :
  (0 < x)%N →
  ∃ c r, pretty_N_go x s = String c r ∧ c ≠ "0"%char.
Proof.
  revert s. induction (N.lt_wf_0 x) as [x _ IH]; intros s Hx.
  rewrite pretty_N_go_step by done.
  destruct (decide (x `div` 10 = 0)%N) as [Hz|Hnz].
  - rewrite Hz, pretty_N_go_0. eexists _, _. split; [done|].
    apply N.div_small_iff in Hz; [|done]. rewrite N.mod_small by done.
    assert (x = 1 ∨ x = 2 ∨ x = 3 ∨ x = 4 ∨ x = 5 ∨ x = 6 ∨ x = 7 ∨ x = 8
            ∨ x = 9)%N as H by lia.
    repeat (destruct H as [->|H]; [done|]). by subst.
  - apply IH; [apply N.div_lt; lia|]. apply N.neq_0_lt_0. exact Hnz.
Qed.

Lemma pretty_N_leading (n : N) :
  ∃ c r, pretty n = String c r ∧ (c = "0"%char → r = "").
Proof.
  unfold pretty, pretty_N. case_decide; [by eexists _, _|].
  destruct (pretty_N_go_leading n "") as (c & r & -> & Hc); [lia|].
  by eexists _, _.
Qed.
End StrFacts.

(* ===================================================================== *)
(** ** Facts about the two version grammars *)
(* ===================================================================== *)

Module VersionFacts.
Import Str StrFacts SemVer Notions.

Lemma parse_inv v sv :
  parse v = Ok sv →
  ∃ c rest g, v = String c rest
    ∧ pattern_match (if decide (c = "v"%char) then rest else v) = Some g
    ∧ convert g = Ok sv.
Proof.
  destruct v as [|c rest]; [done|]. unfold parse. intros H.
  exists c, rest. revert H.
  destruct (decide (c = "v"%char)); simpl;
    (destruct (pattern_match _) as [g|]; [|done]); intros H; by exists g.
Qed.

(** What a match says of the text after the first [+]. *)
Lemma pattern_match_build s front bld g :
  cut "+" (chomp s) = (front, bld) →
  pattern_match s = Some g →
  g_build g = bld ∧ opt_ok (dotted is_build_ident) bld = true.
Proof.
  intros Hplus. unfold pattern_match. rewrite Hplus.
  destruct (cut "-" front) as [core pre].
  destruct (split "." core) as [|ma [|mi [|pa [|? ?]]]]; try done;
    (case_match eqn:Hok; [|done]); intros [= <-];
    unfold well_formed in Hok; simpl in *;
    by apply andb_prop in Hok as [_ ?].
Qed.

Lemma convert_fields g sv :
  convert g = Ok sv →
  pre_release sv = g_pre_release g ∧ build sv = g_build g.
Proof.
  unfold convert. repeat case_match; try done; by intros [= <-].
Qed.

Lemma is_build_ident_chars s :
  is_build_ident s = true → all is_ident_char s = true.
Proof. by destruct s. Qed.

Lemma digit_plain c : is_digit c = true → plain c = true.
Proof. unfold plain, is_alnum. by intros ->. Qed.

Lemma digit_not_v c : is_digit c = true → c ≠ "v"%char.
Proof. by intros H ->. Qed.

Lemma plain_ident_alnum c :
  plain c && is_ident_char c = true → is_alnum c = true.
Proof.
  unfold plain, is_ident_char. destruct (is_alnum c); [done|]. simpl.
  repeat case_bool_decide; subst; done.
Qed.

Lemma plain_not_newline c :
  plain c = true → negb (bool_decide (c = "010"%char)) = true.
Proof. case_bool_decide; [by subst|done]. Qed.

Lemma plain_not_dash c : plain c = true → c ≠ "-"%char.
Proof. by intros H ->. Qed.

Lemma plain_local_sep c :
  plain c = true →
  bool_decide (Pep440.is_local_sep c = is_char "." c) = true.
Proof.
  intros H. apply bool_decide_eq_true. unfold Pep440.is_local_sep, is_char.
  repeat case_bool_decide; subst; done.
Qed.

(** A build field without dashes is a local version label. *)
Lemma build_is_local b :
  all plain b = true → dotted is_build_ident b = true →
  Pep440.is_local b = true.
Proof.
  intros Hplain Hb. unfold Pep440.is_local, dotted, split in *.
  rewrite (split_by_ext Pep440.is_local_sep (is_char ".")); last first.
  { eapply all_impl; [|exact Hplain]. apply plain_local_sep. }
  pose proof (split_by_all plain (is_char ".") b Hplain) as Hsegs.
  revert Hb Hsegs. generalize (split_by (is_char ".") b) as l.
  induction l as [|seg l IH]; [done|]. simpl.
  intros [Hseg Hl]%andb_prop [Hp Hps]%Forall_cons.
  rewrite (IH Hl Hps), andb_true_r.
  destruct seg as [|c seg]; [done|]. unfold Pep440.is_local_segment.
  apply is_build_ident_chars in Hseg.
  eapply all_impl; [apply plain_ident_alnum|].
  apply all_and; [|done].
  eapply all_impl; [|exact Hp]. by intros ? [? _]%andb_prop.
Qed.

End VersionFacts.

(* ===================================================================== *)
(** ** Facts about the file system *)
(* ===================================================================== *)

Module FsFacts.
Import Fs.

Lemma assoc_set_eq k v es : assoc k (assoc_set k v es) = Some v.
Proof.
  induction es as [|[k' v'] es IH]; simpl.
  - by rewrite decide_True.
  - destruct (decide (k' = k)) as [->|Hne]; simpl.
    + by rewrite decide_True.
    + by rewrite decide_False.
Qed.

Lemma assoc_set_ne k k' v es :
  k ≠ k' → assoc k' (assoc_set k v es) = assoc k' es.
Proof.
  intros Hne. induction es as [|[k0 v0] es IH]; simpl.
  - by rewrite decide_False.
  - destruct (decide (k0 = k)) as [->|Hk]; simpl.
    + by rewrite !decide_False.
    + destruct (decide (k0 = k')); [done|]. apply IH.
Qed.


Lemma assoc_del_ne k k' es :
  k ≠ k' → assoc k' (assoc_del k es) = assoc k' es.
Proof.
  intros Hne. induction es as [|[k0 v0] es IH]; [done|]. simpl.
  destruct (decide (k0 = k)) as [->|Hk]; simpl.
  - by rewrite decide_False.
  - destruct (decide (k0 = k')); [done|]. apply IH.
Qed.

(** *** Looking up *)

Lemma lookup_app p q n :
  lookup (p ++ q) n = match lookup p n with
                      | Some m => lookup q m
                      | None => None
                      end.
Proof.
  revert n. induction p as [|c p IH]; intros n; [done|]. simpl.
  destruct n as [|es]; [done|]. destruct (assoc c es); [apply IH|done].
Qed.

Lemma lookup_empty_dir q : q ≠ [] → lookup q (Dir []) = None.
Proof. by destruct q. Qed.

(** *** Diverging paths *)

Lemma diverge_sym p q : diverge p q = diverge q p.
Proof.
  revert q. induction p as [|a p IH]; intros [|b q]; simpl; try done.
  destruct (decide (a = b)) as [->|Hne].
  - by rewrite decide_True, IH.
  - by rewrite decide_False.
Qed.

Lemma diverge_nonempty p q : diverge p q = true → p ≠ [] ∧ q ≠ [].
Proof. by destruct p, q. Qed.

Lemma diverge_app_l p q r : diverge p q = true → diverge (p ++ r) q = true.
Proof.
  revert q. induction p as [|a p IH]; intros [|b q]; simpl; try done.
  destruct (decide (a = b)); [apply IH|done].
Qed.

(** Diverging is being incomparable for the prefix order. *)
Lemma diverge_spec p q :
  diverge p q = true ↔ ¬ p `prefix_of` q ∧ ¬ q `prefix_of` p.
Proof.
  revert q. induction p as [|a p IH]; intros [|b q]; simpl.
  - split; [done|]. intros [H _]. destruct H. apply prefix_nil.
  - split; [done|]. intros [H _]. destruct H. apply prefix_nil.
  - split; [done|]. intros [_ H]. destruct H. apply prefix_nil.
  - destruct (decide (a = b)) as [->|Hne].
    + rewrite IH. split.
      * intros [H1 H2]. split; intros H%prefix_cons_inv_2; auto.
      * intros [H1 H2]. split; intros H; [apply H1|apply H2];
          by apply prefix_cons.
    + split; [|done]. intros _.
      split; intros H%prefix_cons_inv_1; congruence.
Qed.

(** *** Writing leaves the diverging paths alone *)

Lemma lookup_put p x n n' : put p x n = Some n' → lookup p n' = Some x.
Proof.
  revert n n'. induction p as [|c p IH]; intros n n'; simpl.
  - by intros [= ->].
  - destruct n as [|es]; [done|]. destruct p as [|d p].
    + intros [= <-]. simpl. by rewrite assoc_set_eq.
    + destruct (assoc c es) as [child|]; [|done].
      destruct (put (d :: p) x child) as [child'|] eqn:Hput; [|done].
      intros [= <-]. cbn [lookup]. rewrite assoc_set_eq. by eapply IH.
Qed.

Lemma lookup_put_diverge p q x n n' :
  put p x n = Some n' → diverge p q = true → lookup q n' = lookup q n.
Proof.
  revert q n n'. induction p as [|c p IH]; intros q n n'; [done|].
  destruct q as [|b q]; [done|]. cbn [put diverge].
  destruct n as [|es]; [done|].
  destruct (decide (c = b)) as [->|Hne].
  - destruct p as [|d p]; [by destruct q|].
    destruct (assoc b es) as [child|] eqn:Hb; [|done].
    destruct (put (d :: p) x child) as [child'|] eqn:Hput; [|done].
    intros [= <-] Hdiv. cbn [lookup]. rewrite assoc_set_eq, Hb.
    by eapply IH.
  - intros Hput _.
    assert (∃ v, n' = Dir (assoc_set c v es)) as [v ->].
    { destruct p as [|d p]; [injection Hput as <-; eauto|].
      destruct (assoc c es); [|done].
      destruct (put (d :: p) x n); [|done]. injection Hput as <-; eauto. }
    cbn [lookup]. by rewrite assoc_set_ne.
Qed.

Lemma lookup_put_parents p x n n' :
  put_parents p x n = Some n' → lookup p n' = Some x.
Proof.
  revert n n'. induction p as [|c p IH]; intros n n'; simpl.
  - by intros [= ->].
  - destruct n as [|es]; [done|].
    destruct (put_parents p x _) as [child'|] eqn:Hput; [|done].
    intros [= <-]. cbn [lookup]. rewrite assoc_set_eq. by eapply IH.
Qed.

Lemma lookup_put_parents_diverge p q x n n' :
  put_parents p x n = Some n' → diverge p q = true →
  lookup q n' = lookup q n.
Proof.
  revert q n n'. induction p as [|c p IH]; intros q n n'; [done|].
  destruct q as [|b q]; [done|]. cbn [put_parents diverge].
  destruct n as [|es]; [done|].
  destruct (put_parents p x _) as [child'|] eqn:Hput; [|done].
  intros [= <-]. cbn [lookup].
  destruct (decide (c = b)) as [->|Hne].
  - intros Hdiv. rewrite assoc_set_eq, (IH _ _ _ Hput Hdiv).
    destruct (assoc b es); [done|].
    apply lookup_empty_dir. by apply diverge_nonempty in Hdiv as [_ ?].
  - intros _. by rewrite assoc_set_ne.
Qed.

(** *** Removing *)



Lemma lookup_remove_diverge p q n :
  diverge p q = true → lookup q (remove p n) = lookup q n.
Proof.
  revert q n. induction p as [|c p IH]; intros q n; [done|].
  destruct q as [|b q]; [done|]. cbn [remove diverge].
  destruct n as [|es]; [done|].
  destruct (decide (c = b)) as [->|Hne].
  - destruct p as [|d p]; [by destruct q|].
    destruct (assoc b es) as [child|] eqn:Hb; [|done].
    intros Hdiv. cbn [lookup]. rewrite assoc_set_eq, Hb. by apply IH.
  - intros _. destruct p as [|d p].
    + cbn [lookup]. by rewrite assoc_del_ne.
    + destruct (assoc c es); [|done]. cbn [lookup]. by rewrite assoc_set_ne.
Qed.

(** *** Enumerating a directory *)

Lemma glob_suffix_spec dir suffix n p :
  p ∈ glob_suffix dir suffix n →
  ∃ es nm x, lookup dir n = Some (Dir es) ∧ (nm, x) ∈ es
             ∧ p = dir ++ [nm] ∧ Str.endswith suffix nm = true.
Proof.
  unfold glob_suffix. destruct (lookup dir n) as [[|es]|]; try by intros ?%elem_of_nil.
  intros ([nm x] & -> & [Hsuf Hin]%list_elem_of_filter)%list_elem_of_fmap.
  by exists es, nm, x.
Qed.

(** *** Resolution *)

(** A path without [..] is the location it names. *)
Lemma resolve_from_names q p n : ".." ∉ p → resolve_from q p n = At (q ++ p).
Proof.
  revert q. induction p as [|c p IH]; intros q Hp; simpl.
  - by rewrite app_nil_r.
  - apply not_elem_of_cons in Hp as [Hc Hp].
    rewrite decide_False by done. rewrite IH by done. by rewrite <-app_assoc.
Qed.

Lemma resolve_names p n : ".." ∉ p → resolve p n = At p.
Proof. apply resolve_from_names. Qed.

(** Writing a file where no directory stands removes nothing. *)
Lemma put_file_keeps q c n n' r :
  put q (File c) n = Some n' →
  (∀ es, lookup q n ≠ Some (Dir es)) →
  is_Some (lookup r n) → is_Some (lookup r n').
Proof.
  revert n n' r. induction q as [|c1 q IH]; intros n n' r Hput Hnd Hr.
  - injection Hput as <-. destruct n as [c0|es]; [|by destruct (Hnd es)].
    destruct r; [done|]. by destruct Hr.
  - destruct n as [c0|es]; [done|]. cbn [put] in Hput.
    destruct r as [|d r]; [done|]. cbn [lookup] in Hr |- *.
    destruct q as [|c2 q].
    + injection Hput as <-. cbn [lookup].
      destruct (decide (d = c1)) as [->|Hne]; [|by rewrite assoc_set_ne].
      rewrite assoc_set_eq.
      destruct (assoc c1 es) as [[c0|es']|] eqn:Hc; [|by destruct (Hnd es');
        cbn [lookup]; rewrite Hc|by destruct Hr].
      destruct r; [done|]. by destruct Hr.
    + destruct (assoc c1 es) as [child|] eqn:Hc; [|done].
      destruct (put (c2 :: q) _ child) as [child'|] eqn:Hp; [|done].
      injection Hput as <-. cbn [lookup].
      destruct (decide (d = c1)) as [->|Hne]; [|by rewrite assoc_set_ne].
      rewrite assoc_set_eq. rewrite Hc in Hr.
      eapply IH; [exact Hp| |exact Hr].
      intros es' He. apply (Hnd es'). cbn [lookup]. by rewrite Hc.
Qed.

Lemma put_file_exists q c n n' r :
  put q (File c) n = Some n' →
  (∀ es, lookup q n ≠ Some (Dir es)) →
  exists_ r n = true → exists_ r n' = true.
Proof.
  intros Hput Hnd. unfold exists_.
  pose proof (put_file_keeps q c n n' r Hput Hnd) as H.
  destruct (lookup r n); [|done]. intros _.
  by destruct (H ltac:(done)) as [x ->].
Qed.
End FsFacts.

(* ===================================================================== *)
(** ** Facts about the methods *)
(* ===================================================================== *)

Module WheelsFacts.
Import Fs FsFacts Wheels Notions.

(** *** [__enter__] without the reads of what it has just bound *)

Section enter.
Context (env : Env) (self : Wheels).

Lemma enter_eq σ : __enter__ env self σ = enter_direct env self σ.
Proof.
  unfold __enter__, enter_direct, bind_attrs.
  generalize (_build_wheel env self) as bw.
  generalize (TemporaryDirectory env) as td. intros td bw.
  unfold bind, setattr, getattr, as_tmp_dir, as_path, as_str, ret.
  destruct (td σ) as [[tmp|e] σa]; [|done].
  cbn [inst_dict set_dict]. rewrite lookup_insert_eq.
  destruct (bw tmp false _) as [[wheel|e] σb]; [|done].
  cbn [inst_dict set_dict]. rewrite !lookup_insert_eq. done.
Qed.

Lemma TemporaryDirectory_name σ tmp σ' :
  TemporaryDirectory env σ = (Ok tmp, σ') →
  tmp = mkdtemp env (tick σ) ∧ exists_ tmp (fs σ) = false
  ∧ put tmp (Dir []) (fs σ) = Some (fs σ').
Proof.
  unfold TemporaryDirectory.
  destruct (exists_ _ _) eqn:He; [done|].
  destruct (put _ _ _) eqn:Hp; [|done]. by intros [= <- <-].
Qed.
End enter.

(** *** Relations that every step of a statement respects *)

Section respects.
Context (R : State → State → Prop).
Context (R_refl : ∀ σ, R σ σ) (R_trans : ∀ a b c, R a b → R b c → R a c).

Local Abbreviation respects := (Notions.respects R).

Lemma respects_ret {A} (a : A) : respects (ret a).
Proof. intros σ. apply R_refl. Qed.

Lemma respects_raise {A} e : respects (@raise A e).
Proof. intros σ. apply R_refl. Qed.

Lemma respects_lift {A} (r : result A) : respects (lift r).
Proof. intros σ. apply R_refl. Qed.

(** The continuation only has to respect [R] on the values that the
    first statement can return. *)
Lemma respects_bind_val {A B} (m : M A) (k : A → M B) :
  respects m →
  (∀ a, (∃ σ σ', m σ = (Ok a, σ')) → respects (k a)) →
  respects (bind m k).
Proof.
  intros Hm Hk σ. unfold bind. specialize (Hm σ).
  destruct (m σ) as [[a|e] σ'] eqn:Hrun; [|done].
  eapply R_trans; [exact Hm|apply Hk; eauto].
Qed.

Lemma respects_bind {A B} (m : M A) (k : A → M B) :
  respects m → (∀ a, respects (k a)) → respects (bind m k).
Proof. intros Hm Hk. apply respects_bind_val; auto. Qed.

Lemma respects_try_except {A} (m : M A) (h : exn → M A) :
  respects m → (∀ e, respects (h e)) → respects (try_except m h).
Proof.
  intros Hm Hh σ. unfold try_except. specialize (Hm σ).
  destruct (m σ) as [[a|e] σ']; [done|].
  eapply R_trans; [exact Hm|apply Hh].
Qed.

Lemma respects_if {A} (b : bool) (m1 m2 : M A) :
  respects m1 → respects m2 → respects (if b then m1 else m2).
Proof. by destruct b. Qed.

Lemma respects_as_str v : respects (as_str v).
Proof. destruct v; intros σ; apply R_refl. Qed.
Lemma respects_as_path v : respects (as_path v).
Proof. destruct v; intros σ; apply R_refl. Qed.
Lemma respects_as_tmp_dir v : respects (as_tmp_dir v).
Proof. destruct v; intros σ; apply R_refl. Qed.
Lemma respects_next {A} (l : list A) : respects (next l).
Proof. destruct l; intros σ; apply R_refl. Qed.
Lemma respects_decode_utf8 o : respects (decode_utf8 o).
Proof. destruct o as [[]|]; intros σ; apply R_refl. Qed.

(** Statements that read the state and leave it as it is. *)
Lemma respects_hasattr n : respects (hasattr n).
Proof. intros σ. apply R_refl. Qed.
Lemma respects_getattr n : respects (getattr n).
Proof. intros σ. unfold getattr. destruct (_ !! _); apply R_refl. Qed.
Lemma respects_path_exists p : respects (path_exists p).
Proof. intros σ. apply R_refl. Qed.
Lemma respects_glob d s : respects (glob d s).
Proof. intros σ. apply R_refl. Qed.
Lemma respects_open_rb p : respects (open_rb p).
Proof. intros σ. unfold open_rb. destruct (lookup _ _) as [[]|]; apply R_refl. Qed.

Context (ok : path → Prop) (ok_app : ∀ p r, ok p → ok (p ++ r)).
Context (ok_run : list string → redirect → redirect → Prop).

Local Abbreviation build_steps := (Notions.build_steps R ok ok_run).
Local Abbreviation scope_steps := (Notions.scope_steps R ok ok_run).
Local Abbreviation upload_steps := (Notions.upload_steps R).

Ltac step :=
  first
    [ apply respects_bind; [|intros ?]
    | apply respects_try_except; [|intros ?]
    | apply respects_if
    | apply respects_ret | apply respects_raise | apply respects_lift
    | apply respects_as_str | apply respects_as_path
    | apply respects_as_tmp_dir | apply respects_next
    | apply respects_decode_utf8 | apply respects_hasattr
    | apply respects_getattr | apply respects_path_exists
    | apply respects_glob | apply respects_open_rb
    | match goal with
      | H : build_steps _ |- _ =>
          first [ apply (bs_setattr_version H)
                | apply (bs_run H), (bs_git H)
                | apply (bs_now H) | apply (bs_log H) ]
      | H : scope_steps _ |- _ =>
          first [ apply (ss_tmp H) | apply (ss_cleanup H)
                | apply (ss_setattr_tmp_dir H)
                | apply (ss_setattr_local_wheel H)
                | apply (ss_setattr_remote_wheel H)
                | apply (ss_setattr_remote_dir_name H) ]
      | H : upload_steps |- _ =>
          first [ apply (us_log H) | apply (us_mkdirs H)
                | apply (us_upload H) ]
      end ].

Lemma respects_version env self :
  build_steps env → respects (version env self).
Proof. intros H. unfold version, version_try, version_except. repeat step. Qed.

Lemma ok_working_copy tmp_dir : ok tmp_dir → ok (joinpath tmp_dir "working-copy").
Proof. apply ok_app. Qed.

Lemma ok_about_file tmp_dir prod :
  ok tmp_dir → ok (joinpath (joinpath tmp_dir "working-copy") (about_file prod)).
Proof. intros H. by apply ok_app, ok_app. Qed.

(** The builder writes to two places, the copy and the version file
    in it; they are named here and not derived from [tmp_dir], since
    the path of the version file holds the product name. *)
Lemma respects_run_packaging_tool env self tmp_dir (verbose : bool) :
  build_steps env →
  ok (joinpath tmp_dir "working-copy") →
  ok (joinpath (joinpath tmp_dir "working-copy")
        (about_file (product (_install_state self)))) →
  (∀ root, ok_run (pip_wheel_argv env tmp_dir root)
             (if verbose then STDOUT else DEVNULL)
             (if verbose then STDOUT else DEVNULL)) →
  respects (run_packaging_tool env self tmp_dir verbose).
Proof.
  intros H Hcopy Habout Hpip. pose proof (respects_version env self H) as Hv.
  unfold run_packaging_tool. destruct verbose; simpl; repeat step;
    first [ exact Hv
          | apply (bs_copytree H), Hcopy
          | apply (bs_write_file H), Habout
          | apply (bs_run H), Hpip ].
Qed.

Lemma respects_build_wheel env self tmp_dir (verbose : bool) :
  build_steps env →
  ok (joinpath tmp_dir "working-copy") →
  ok (joinpath (joinpath tmp_dir "working-copy")
        (about_file (product (_install_state self)))) →
  (∀ root, ok_run (pip_wheel_argv env tmp_dir root)
             (if verbose then STDOUT else DEVNULL)
             (if verbose then STDOUT else DEVNULL)) →
  respects (_build_wheel env self tmp_dir verbose).
Proof.
  intros H Hcopy Habout Hpip. unfold _build_wheel.
  apply respects_bind; [|intros _; repeat step].
  by apply respects_run_packaging_tool.
Qed.

Lemma respects_upload_to_dbfs : upload_steps → respects upload_to_dbfs.
Proof. intros H. unfold upload_to_dbfs. repeat step. Qed.

Lemma respects_upload_to_wsfs : upload_steps → respects upload_to_wsfs.
Proof. intros H. unfold upload_to_wsfs. repeat step. Qed.

Lemma respects_exit : ∀ env, scope_steps env → respects __exit__.
Proof. intros env H. unfold __exit__. repeat step. Qed.

Lemma respects_enter env self :
  scope_steps env → respects (__enter__ env self).
Proof.
  intros H σ. rewrite enter_eq. revert σ. pose proof (ss_build H).
  unfold enter_direct, bind_attrs.
  apply respects_bind_val; [apply (ss_tmp H)|].
  intros tmp (σ & σ' & [-> _]%TemporaryDirectory_name).
  apply respects_bind; [apply (ss_setattr_tmp_dir H)|intros _].
  apply respects_bind; [|intros wheel; repeat step].
  apply respects_build_wheel;
    [done|apply ok_working_copy, (ss_tmp_ok H)
    |apply ok_about_file, (ss_tmp_ok H)|].
  intros root. apply (ss_pip H).
Qed.

(** The whole scoped use respects [R] when its body does. *)
Lemma respects_with env self {A} (body : M A) :
  scope_steps env → respects body → respects (with_ env self body).
Proof.
  intros H Hbody σ. unfold with_.
  pose proof (respects_enter env self H σ) as He.
  destruct (__enter__ env self σ) as [[[]|e] σ1]; [|done].
  pose proof (Hbody σ1) as Hb.
  destruct (body σ1) as [[a|e] σ2];
    pose proof (respects_exit env H σ2) as Hx;
    destruct (__exit__ σ2) as [[[]|e'] σ3]; simpl in *; eauto.
Qed.
End respects.

(** *** Three such relations *)

Lemma same_attr_refl k σ : same_attr k σ σ.
Proof. done. Qed.
Lemma same_attr_trans k a b c :
  same_attr k a b → same_attr k b c → same_attr k a c.
Proof. unfold same_attr. congruence. Qed.

Lemma extends_refl P σ : extends P σ σ.
Proof. exists []. by rewrite app_nil_r. Qed.
Lemma extends_trans P a b c : extends P a b → extends P b c → extends P a c.
Proof.
  intros (e1 & H1 & F1) (e2 & H2 & F2). exists (e1 ++ e2).
  rewrite H2, H1, app_assoc. split; [done|]. by apply Forall_app.
Qed.

Lemma same_tree_refl root σ : same_tree root σ σ.
Proof. done. Qed.
Lemma same_tree_trans root a b c :
  same_tree root a b → same_tree root b c → same_tree root a c.
Proof. unfold same_tree. congruence. Qed.

Ltac run_primitive :=
  intros σ;
  unfold subprocess_run, now_stamp, emit, copytree, write_file,
    TemporaryDirectory, cleanup, remote_mkdirs, remote_upload, setattr;
  repeat case_match; simpl.

Lemma same_attr_build k env :
  k ≠ "_Wheels__version" →
  build_steps (same_attr k) (λ _, True) (λ _ _ _, True) env.
Proof.
  intros Hk. split; try done; intros; run_primitive; try done.
  unfold same_attr. simpl. by rewrite lookup_insert_ne.
Qed.

Lemma same_attr_uploads k : upload_steps (same_attr k).
Proof. split; intros; try (destruct t); run_primitive; done. Qed.

Lemma same_attr_scope k env :
  k ∉ ["_Wheels__version"; "_tmp_dir"; "_local_wheel"; "_remote_wheel";
       "_remote_dir_name"] →
  scope_steps (same_attr k) (λ _, True) (λ _ _ _, True) env.
Proof.
  intros Hk.
  split; [apply same_attr_build; set_solver|apply same_attr_uploads|..];
    try done; intros; run_primitive; unfold same_attr; simpl; try done;
    (rewrite lookup_insert_ne; [done|set_solver]).
Qed.

Lemma extends_one (P : event → Prop) ev σ σ' :
  trace σ' = trace σ ++ [ev] → P ev → extends P σ σ'.
Proof. intros Ht HP. exists [ev]. split; [done|]. by constructor. Qed.

Lemma extends_none (P : event → Prop) σ σ' :
  trace σ' = trace σ → extends P σ σ'.
Proof. intros Ht. exists []. by rewrite app_nil_r. Qed.

Lemma extends_build (P : event → Prop) env :
  (∀ rc, P (EvRun git_describe_argv PIPE Inherit rc)) →
  (∀ level msg, P (EvLog level msg)) →
  build_steps (extends P) (λ _, True) (λ argv o e, ∀ rc, P (EvRun argv o e rc)) env.
Proof.
  intros Hgit Hlog. split; try done; intros; run_primitive;
    first [ by apply extends_none | eapply extends_one; [reflexivity|auto] ].
Qed.

Lemma extends_uploads (P : event → Prop) :
  (∀ level msg, P (EvLog level msg)) →
  (∀ t d, P (EvMkdirs t d)) →
  (∀ t d c o f, P (EvUpload t d c o f)) →
  upload_steps (extends P).
Proof.
  intros Hlog Hmk Hup. split; intros; try (destruct t); run_primitive;
    first [ by apply extends_none | eapply extends_one; [reflexivity|auto] ].
Qed.

Lemma extends_scope (P : event → Prop) env :
  (∀ rc, P (EvRun git_describe_argv PIPE Inherit rc)) →
  (∀ tmp root rc, P (EvRun (pip_wheel_argv env tmp root) DEVNULL DEVNULL rc)) →
  (∀ level msg, P (EvLog level msg)) →
  (∀ t d, P (EvMkdirs t d)) →
  (∀ t d c o f, P (EvUpload t d c o f)) →
  scope_steps (extends P) (λ _, True) (λ argv o e, ∀ rc, P (EvRun argv o e rc)) env.
Proof.
  intros Hgit Hpip Hlog Hmk Hup.
  split; [by apply extends_build|by apply extends_uploads|..];
    try done; intros; run_primitive; first [ by apply extends_none | eapply extends_one; [reflexivity|auto] ].
Qed.

(** A place that the builder may write to without touching what stands
    at [root]: apart from [root], and reached without [..]. *)
Lemma same_tree_build root env :
  exec_leaves root env →
  build_steps (same_tree root)
    (λ p, diverge p root = true ∧ ".." ∉ p) (λ _ _ _, True) env.
Proof.
  intros Hexec. split; try done.
  - intros argv o e c _ σ. unfold subprocess_run.
    destruct o; try done;
      (destruct (exec _ _ _ _) eqn:Hx; [done|]);
      apply Hexec in Hx; by case_match.
  - intros src dst [Hd _] σ. unfold copytree.
    destruct (lookup src _) as [[|es]|]; try done.
    destruct (exists_ _ _); [done|].
    destruct (put_parents _ _ _) eqn:Hp; [|done].
    by eapply lookup_put_parents_diverge.
  - intros p c [Hd Hp] σ. unfold write_file. rewrite resolve_names by done.
    destruct (lookup p _) as [[|es]|];
      try done; (destruct (put _ _ _) eqn:Hput; [|done]);
      by eapply lookup_put_diverge.
Qed.
End WheelsFacts.

(* ===================================================================== *)
(** ** The version resolver *)
(* ===================================================================== *)

Module VersionTheory.
Import Fs FsFacts Str StrFacts VersionFacts Wheels Notions WheelsFacts.

Section resolver.
Context (env : Env) (self : Wheels).

(** [hasattr(self, "__version")] is decided by the attributes that
    were created after construction: the name is none of the fixed
    ones. *)
Lemma hasattr_version σ :
  hasattr "__version" σ
  = (Ok (bool_decide (is_Some (inst_dict σ !! "__version"))), σ).
Proof. done. Qed.

Lemma version_unmanaged σ :
  inst_dict σ !! "__version" = None →
  exists_ (git_config env) (fs σ) = false →
  version env self σ = (Ok (_released_version self), σ).
Proof.
  intros Hd Hg. unfold version, bind. rewrite hasattr_version, Hd.
  rewrite bool_decide_eq_false_2 by by intros [? ?].
  unfold path_exists. fold (git_config env). by rewrite Hg.
Qed.

Lemma version_managed σ :
  inst_dict σ !! "__version" = None →
  exists_ (git_config env) (fs σ) = true →
  version env self σ = try_except (version_try env) (version_except self) σ.
Proof.
  intros Hd Hg. unfold version, bind. rewrite hasattr_version, Hd.
  rewrite bool_decide_eq_false_2 by by intros [? ?].
  unfold path_exists. fold (git_config env). by rewrite Hg.
Qed.

Lemma version_try_ok σ s σ' :
  version_try env σ = (Ok s, σ') →
  ∃ g dv t,
    SemVer.parse g = Ok dv
    ∧ s = semver_and_pep0440 dv (strftime_YmdHMS (now env t))
    ∧ is_ok (SemVer.parse s) = true.
Proof.
  unfold version_try, bind.
  destruct (subprocess_run _ _ _ _ _ σ) as [[out|e] σ1]; [|done].
  destruct (decode_utf8 _ σ1) as [[g|e] σ2]; [|done].
  unfold lift at 1. destruct (SemVer.parse g) as [dv|e] eqn:Hg; [|done].
  unfold now_stamp, lift.
  destruct (SemVer.parse (semver_and_pep0440 _ _)) as [sv|e] eqn:Hs; [|done].
  simpl. intros [= <- <-]. exists g, dv, (tick σ2). by rewrite Hs.
Qed.

(** The source-control tool is started once, whatever comes of it. *)
Lemma version_try_trace σ :
  ∃ rc, trace (version_try env σ).2
        = trace σ ++ [EvRun git_describe_argv PIPE Inherit rc].
Proof.
  unfold version_try, bind at 1, subprocess_run.
  destruct (exec _ _ _ _) as [e|rc out n]; [by eexists|].
  exists (Some rc). destruct (true && _); [done|].
  match goal with
  | |- trace (?k ?a ?s).2 = _ =>
      enough (trace (k a s).2 = trace s) as -> by done
  end.
  unfold bind, decode_utf8, lift, now_stamp, setattr, ret, raise. simpl.
  repeat case_match; simplify_eq/=; done.
Qed.

(** Every cause of failure that the try block can meet makes it
    raise: the tool cannot be started, it exits with an error, its
    output does not decode, the tag does not parse, the composed
    string does not parse. *)
Lemma version_try_raises σ :
  match exec env (tick σ) git_describe_argv (fs σ) with
  | SpawnFailed e => (version_try env σ).1 = Raise e
  | Exited rc out _ =>
      if negb (rc =? 0)%Z
      then (version_try env σ).1
           = Raise (called_process_error git_describe_argv rc)
      else match out with
           | NotUtf8 why =>
               (version_try env σ).1 = Raise (Exn UnicodeDecodeError why)
           | Utf8 g =>
               match SemVer.parse g with
               | Raise e => (version_try env σ).1 = Raise e
               | Ok dv =>
                   ∀ e,
                     SemVer.parse
                       (semver_and_pep0440 dv
                          (strftime_YmdHMS (now env (S (tick σ)))))
                     = Raise e →
                     (version_try env σ).1 = Raise e
               end
           end
  end.
Proof.
  pose proof (eq_refl (version_try env σ)) as Hrun.
  unfold version_try at 2, bind at 1, subprocess_run in Hrun.
  destruct (exec _ _ _ _) as [e|rc out n]; [by rewrite Hrun|].
  simpl in Hrun. destruct (rc =? 0)%Z; simpl in *; [|by rewrite Hrun].
  unfold bind at 1 in Hrun. simpl in Hrun.
  destruct out as [g|why]; simpl in Hrun; [|by rewrite Hrun].
  unfold bind at 1, lift at 1 in Hrun.
  destruct (SemVer.parse g) as [dv|e]; [|by rewrite Hrun].
  intros e He. unfold bind, now_stamp, lift in Hrun. simpl in Hrun.
  rewrite He in Hrun. by rewrite Hrun.
Qed.

(** *** The shape of the composed string *)

Lemma zpad2_digits n : all is_digit (zpad2 n) = true.
Proof.
  unfold zpad2. case_match; rewrite ?all_app, ?pretty_N_digits; done.
Qed.

Lemma strftime_digits dt : all is_digit (strftime_YmdHMS dt) = true.
Proof.
  unfold strftime_YmdHMS.
  by rewrite !all_app, pretty_N_digits, !zpad2_digits.
Qed.

Lemma ident_or_dot_plain c :
  (SemVer.is_ident_char c || is_char "." c) && negb (is_char "-" c) = true →
  plain c = true.
Proof.
  unfold SemVer.is_ident_char, is_char, plain.
  destruct (is_alnum c); [done|]. simpl.
  repeat case_bool_decide; subst; done.
Qed.

Lemma digits_plain s : all is_digit s = true → all plain s = true.
Proof. apply all_impl, digit_plain. Qed.

Lemma strftime_nonempty dt : strftime_YmdHMS dt ≠ "".
Proof.
  unfold strftime_YmdHMS. pose proof (pretty_N_nonempty (year dt)) as H.
  by destruct (pretty (year dt)).
Qed.

(** The marker is what stands before the first dash of the
    pre-release, or the text [None]: it holds no dash. *)
Lemma marker_no_dash pre :
  all (λ c, negb (is_char "-" c)) (of_optional (new_commits_of pre)) = true.
Proof.
  destruct pre as [[|c p]|]; [done| |done]. simpl. apply split_by_hd.
Qed.

Lemma composed_parts dv ds :
  semver_and_pep0440 dv ds
  = release_part dv +:+ String "+" (local_part dv ds).
Proof.
  unfold semver_and_pep0440, release_part, local_part.
  by rewrite !append_assoc.
Qed.

Lemma release_chars dv :
  all (λ c, is_digit c || is_char "." c) (release_part dv) = true.
Proof.
  unfold release_part. rewrite !all_app.
  rewrite !(all_impl is_digit (λ c, is_digit c || is_char "." c) (pretty _))
    by (apply pretty_N_digits || by intros ? ->).
  done.
Qed.

Lemma release_split dv :
  split "." (release_part dv)
  = [pretty (SemVer.major dv); pretty (SemVer.minor dv);
     pretty (SemVer.patch dv + 1)%N].
Proof.
  unfold release_part, split. rewrite !append_one.
  rewrite split_by_app by (by apply digits_no_dot, pretty_N_digits || done).
  rewrite split_by_app by (by apply digits_no_dot, pretty_N_digits || done).
  by rewrite split_by_absent by by apply digits_no_dot, pretty_N_digits.
Qed.

Lemma composed_cut dv ds :
  cut "+" (semver_and_pep0440 dv ds)
  = (release_part dv, Some (local_part dv ds)).
Proof.
  rewrite composed_parts. apply cut_app.
  eapply all_mem; [apply release_chars|done].
Qed.

Lemma composed_chomp dv ds :
  ds ≠ "" → all is_digit ds = true →
  SemVer.chomp (semver_and_pep0440 dv ds) = semver_and_pep0440 dv ds.
Proof.
  intros Hne Hds. unfold semver_and_pep0440. rewrite <-!append_assoc.
  apply chomp_app; [done|]. apply chomp_id.
  eapply all_impl; [|exact Hds]. by intros c Hc; case_bool_decide; subst.
Qed.

Lemma composed_starts_with_digit dv ds :
  ∃ c rest, semver_and_pep0440 dv ds = String c rest ∧ is_digit c = true.
Proof.
  unfold semver_and_pep0440.
  pose proof (pretty_N_digits (SemVer.major dv)) as Hd.
  pose proof (pretty_N_nonempty (SemVer.major dv)) as Hn.
  destruct (pretty (SemVer.major dv)) as [|c rest]; [done|].
  simpl in Hd. apply andb_prop in Hd as [Hc _].
  rewrite append_String. eauto.
Qed.

(** Line 58 passes only when what stands after the [+] is build
    metadata. *)
Lemma composed_build dv ds :
  ds ≠ "" → all is_digit ds = true →
  is_ok (SemVer.parse (semver_and_pep0440 dv ds)) = true →
  SemVer.dotted SemVer.is_build_ident (local_part dv ds) = true.
Proof.
  intros Hne Hds Hok.
  destruct (composed_starts_with_digit dv ds) as (c & rest & Hs & Hc).
  destruct (SemVer.parse (semver_and_pep0440 dv ds)) as [sv|] eqn:Hsv; [|done].
  apply parse_inv in Hsv as (c' & rest' & g & Hs' & Hpm & _).
  rewrite Hs in Hs'. injection Hs' as <- <-.
  rewrite decide_False in Hpm by by apply digit_not_v.
  assert (cut "+" (SemVer.chomp (semver_and_pep0440 dv ds))
          = (release_part dv, Some (local_part dv ds))) as Hcut
    by (by rewrite composed_chomp, composed_cut).
  by destruct (pattern_match_build _ _ _ _ Hcut Hpm) as [_ Hb].
Qed.

(** Build metadata without a dash is made of letters, digits and
    dots. *)
Lemma local_plain dv ds :
  all is_digit ds = true →
  SemVer.dotted SemVer.is_build_ident (local_part dv ds) = true →
  all plain (local_part dv ds) = true.
Proof.
  intros Hds Hb.
  assert (all (λ c, SemVer.is_ident_char c || is_char "." c)
            (local_part dv ds) = true) as Hchars.
  { apply split_by_chars.
    eapply forallb_Forall_all; [apply is_build_ident_chars|exact Hb]. }
  assert (all (λ c, negb (is_char "-" c)) (local_part dv ds) = true) as Hdash.
  { unfold local_part. rewrite all_app, marker_no_dash. simpl.
    eapply all_impl; [|exact Hds]. by intros c Hc; unfold is_char;
      case_bool_decide; subst. }
  eapply all_impl; [apply ident_or_dot_plain|]. by apply all_and.
Qed.

Lemma pretty_release_segment (n : N) : Pep440.is_release_segment (pretty n) = true.
Proof.
  pose proof (pretty_N_digits n) as Hd. pose proof (pretty_N_nonempty n) as Hn.
  by destruct (pretty n).
Qed.

Lemma pretty_std_numeric (n : N) : SemVer.std_numeric (pretty n) = true.
Proof.
  pose proof (pretty_N_digits n) as Hd.
  destruct (pretty_N_leading n) as (c & r & Hp & Hz). rewrite Hp in *.
  unfold SemVer.std_numeric. rewrite Hd. simpl.
  case_bool_decide as Hc; [|done]. rewrite (Hz Hc). done.
Qed.

(** A composed string that passes line 58 is a packaging version and a
    semantic version of the standard grammar. *)
Lemma composed_pep440 dv ds :
  ds ≠ "" → all is_digit ds = true →
  is_ok (SemVer.parse (semver_and_pep0440 dv ds)) = true →
  Pep440.valid (semver_and_pep0440 dv ds) = true.
Proof.
  intros Hne Hds Hok. pose proof (composed_build dv ds Hne Hds Hok) as Hb.
  unfold Pep440.valid. rewrite composed_cut. apply andb_true_intro. split.
  - unfold Pep440.is_release. fold (split "." (release_part dv)).
    rewrite release_split. simpl. by rewrite !pretty_release_segment.
  - simpl. apply build_is_local; [by apply local_plain|done].
Qed.

Lemma composed_standard dv ds :
  ds ≠ "" → all is_digit ds = true →
  is_ok (SemVer.parse (semver_and_pep0440 dv ds)) = true →
  SemVer.standard (semver_and_pep0440 dv ds) = true.
Proof.
  intros Hne Hds Hok. pose proof (composed_build dv ds Hne Hds Hok) as Hb.
  unfold SemVer.standard. rewrite composed_cut.
  rewrite cut_absent by (eapply all_mem; [apply release_chars|done]).
  rewrite release_split. by rewrite !pretty_std_numeric.
Qed.

(** *** The error message *)

Lemma message_has_issues_url org prod err :
  contains (issues_url org prod) (cannot_determine org prod err).
Proof.
  unfold cannot_determine, issues_url.
  exists ("Cannot determine unreleased version. Please report this error "
          +:+ "message that you see on ").
  eexists. rewrite !append_assoc. reflexivity.
Qed.

Lemma message_has_releases_url org prod err :
  contains (releases_url org prod) (cannot_determine org prod err).
Proof.
  unfold cannot_determine, releases_url.
  exists ("Cannot determine unreleased version. Please report this error "
          +:+ "message that you see on https://github.com/" +:+ org +:+ "/"
          +:+ prod +:+ "/issues/new. "
          +:+ "Meanwhile, download, unpack, and install the latest released version from ").
  eexists. rewrite !append_assoc. reflexivity.
Qed.

Lemma message_has_cause org prod err :
  contains err (cannot_determine org prod err).
Proof.
  unfold cannot_determine.
  repeat first [apply contains_end | apply contains_app_l].
Qed.
End resolver.
End VersionTheory.

(* ===================================================================== *)
(** ** The builder, the scope and the uploads *)
(* ===================================================================== *)

Module ScopeTheory.
Import Fs FsFacts Str StrFacts Wheels Notions WheelsFacts.

Section scope.
Context (env : Env) (self : Wheels).

Lemma build_wheel_after_tool tmp verbose σ cp σ1 :
  run_packaging_tool env self tmp verbose σ = (Ok cp, σ1) →
  _build_wheel env self tmp verbose σ
  = (pick (glob_suffix tmp ".whl" (fs σ1)), σ1).
Proof.
  intros Hrun. unfold _build_wheel, bind at 1. rewrite Hrun.
  unfold bind, glob, next. by destruct (glob_suffix _ _ _).
Qed.

Lemma build_wheel_ok tmp verbose σ wheel σ1 :
  _build_wheel env self tmp verbose σ = (Ok wheel, σ1) →
  ∃ rest, glob_suffix tmp ".whl" (fs σ1) = wheel :: rest.
Proof.
  unfold _build_wheel, bind at 1.
  destruct (run_packaging_tool _ _ _ _ _) as [[cp|e] σa]; [|done].
  unfold bind, glob, next. destruct (glob_suffix _ _ _) as [|w rest] eqn:Hg; [done|].
  intros [= <- <-]. eauto.
Qed.

Lemma bind_ok_inv {A B} (m : M A) (k : A → M B) σ b σ' :
  bind m k σ = (Ok b, σ') →
  ∃ a σa, m σ = (Ok a, σa) ∧ k a σa = (Ok b, σ').
Proof.
  unfold bind. destruct (m σ) as [[a|e] σa]; [|done]. eauto.
Qed.

Lemma subprocess_run_ok argv o e σ cp σ' :
  subprocess_run env argv o e true σ = (Ok cp, σ') →
  cp_returncode cp = 0%Z.
Proof.
  unfold subprocess_run.
  destruct o; try done;
    (destruct (exec _ _ _ _) as [?|rc out n]; [done|]);
    simpl; (destruct (rc =? 0)%Z eqn:Hrc; [|done]); simpl;
    intros [= <- _]; simpl; by apply Z.eqb_eq.
Qed.

(** With [check=True], the lines up to the tool return only when
    the tool exits with status 0. *)
Lemma run_packaging_tool_ok tmp verbose σ cp σ1 :
  run_packaging_tool env self tmp verbose σ = (Ok cp, σ1) →
  cp_returncode cp = 0%Z.
Proof.
  unfold run_packaging_tool. destruct verbose; simpl; intros H;
    do 4 (apply bind_ok_inv in H as (? & ? & _ & H));
    by apply subprocess_run_ok in H.
Qed.

(** What a successful [__enter__] leaves in the instance. *)
Lemma enter_ok σ σ1 :
  __enter__ env self σ = (Ok tt, σ1) →
  let tmp := mkdtemp env (tick σ) in
  exists_ tmp (fs σ) = false
  ∧ inst_dict σ1 !! "_tmp_dir" = Some (VTmpDir tmp)
  ∧ ∃ wheel rest,
      glob_suffix tmp ".whl" (fs σ1) = wheel :: rest
      ∧ inst_dict σ1 !! "_local_wheel" = Some (VPath wheel)
      ∧ inst_dict σ1 !! "_remote_wheel" = Some (VStr (remote_path self wheel))
      ∧ inst_dict σ1 !! "_remote_dir_name"
        = Some (VStr (dirname (remote_path self wheel))).
Proof.
  rewrite enter_eq. unfold enter_direct, bind at 1.
  destruct (TemporaryDirectory env σ) as [[tmp|e] σa] eqn:Htd; [|done].
  apply TemporaryDirectory_name in Htd as (-> & Hfresh & _).
  unfold bind at 1, setattr at 1, bind at 1.
  set (σb := set_dict _ σa).
  pose proof (respects_build_wheel (same_attr "_tmp_dir")
                (same_attr_refl _) (same_attr_trans _) (λ _, True)
                (λ _ _ _, True) env self
                (mkdtemp env (tick σ)) false
                (same_attr_build "_tmp_dir" env ltac:(done)) I I (λ _, I) σb)
    as Hkeep.
  destruct (_build_wheel _ _ _ _ σb) as [[wheel|e] σc] eqn:Hb; [|done].
  unfold same_attr in Hkeep. simpl in Hkeep.
  apply build_wheel_ok in Hb as [rest Hglob].
  unfold bind_attrs, bind, setattr, ret. simpl. intros [= <-]. simpl.
  split; [done|]. split.
  - rewrite !lookup_insert_ne by done. rewrite Hkeep. subst σb. simpl.
    by rewrite lookup_insert_eq.
  - exists wheel, rest. split; [done|].
    rewrite lookup_insert_eq.
    rewrite (lookup_insert_ne _ "_remote_dir_name" "_remote_wheel") by done.
    rewrite lookup_insert_eq.
    rewrite !(lookup_insert_ne _ _ "_local_wheel") by done.
    by rewrite lookup_insert_eq.
Qed.

(** *** Leaving the scope *)


(** *** Uploading *)

Lemma bind_run {A B} (m : M A) (k : A → M B) σ a σ' :
  m σ = (Ok a, σ') → bind m k σ = k a σ'.
Proof. unfold bind. by intros ->. Qed.

Lemma read_str n s σ :
  inst_dict σ !! n = Some (VStr s) →
  (v <~ getattr n ;; as_str v) σ = (Ok s, σ).
Proof. intros H. unfold bind, getattr. by rewrite H. Qed.

Lemma read_path n p σ :
  inst_dict σ !! n = Some (VPath p) →
  (v <~ getattr n ;; as_path v) σ = (Ok p, σ).
Proof. intros H. unfold bind, getattr. by rewrite H. Qed.

Lemma read_file p c σ :
  lookup p (fs σ) = Some (File c) → open_rb p σ = (Ok c, σ).
Proof. intros H. unfold open_rb. by rewrite H. Qed.

Lemma upload_run t wheel content σ :
  holds_artifact self wheel content σ →
  let remote := remote_path self wheel in
  upload t σ = (Ok remote, uploaded t (dirname remote) remote content σ).
Proof.
  intros (Hw & Hr & Hd & Hf). simpl.
  destruct t; unfold upload, upload_to_dbfs, upload_to_wsfs.
  all: erewrite bind_run by (by apply read_path).
  all: erewrite bind_run by (by apply read_file).
  all: erewrite bind_run by (by apply read_str).
  all: erewrite bind_run by reflexivity.
  all: erewrite bind_run by (by apply read_str).
  all: erewrite bind_run by reflexivity.
  all: erewrite bind_run by (by apply read_str).
  all: unfold bind at 1, remote_upload; simpl; rewrite andb_false_r.
  all: erewrite bind_run by (by apply read_str).
  all: reflexivity.
Qed.

Lemma upload_ok t wheel content σ :
  holds_artifact self wheel content σ →
  let remote := remote_path self wheel in
  ∃ σ',
    upload t σ = (Ok remote, σ')
    ∧ holds_artifact self wheel content σ'
    ∧ trace σ' = trace σ ++ [EvMkdirs t (dirname remote); upload_log t remote;
                             EvUpload t remote content true (upload_format t)]
    ∧ dirname remote ∈ r_dirs (get_remote t σ')
    ∧ r_files (get_remote t σ') !! remote = Some content.
Proof.
  intros Hh. simpl. eexists. split; [by apply upload_run|].
  destruct Hh as (Hw & Hr & Hd & Hf).
  destruct t; unfold holds_artifact, uploaded; simpl;
    rewrite <-?app_assoc; simpl;
    (repeat split; try done; [set_solver | by rewrite lookup_insert_eq]).
Qed.
End scope.
End ScopeTheory.

(* ===================================================================== *)
(** ** The public surface *)
(* ===================================================================== *)

Module Surface.
Import Fs FsFacts Wheels Notions WheelsFacts.

Section surface.
Context (env : Env) (self : Wheels).

Section respects.
Context (R : State → State → Prop).
Context (R_refl : ∀ σ, R σ σ) (R_trans : ∀ a b c, R a b → R b c → R a c).
Context (ok : path → Prop) (ok_app : ∀ p r, ok p → ok (p ++ r)).
Context (ok_run : list string → redirect → redirect → Prop).
Context (steps : scope_steps R ok ok_run env).

Lemma after_respects op σ : R σ (after env self op σ).
Proof.
  destruct op; simpl.
  - by eapply respects_enter.
  - by eapply respects_exit.
  - eapply respects_version; [done..|]. apply (ss_build steps).
  - eapply respects_upload_to_dbfs; [done..|]. apply (ss_uploads steps).
  - eapply respects_upload_to_wsfs; [done..|]. apply (ss_uploads steps).
Qed.

Lemma after_all_respects ops σ : R σ (after_all env self ops σ).
Proof.
  revert σ. induction ops as [|op ops IH]; intros σ; [apply R_refl|].
  simpl. eapply R_trans; [apply after_respects|apply IH].
Qed.
End respects.

(** No public call binds the name that [version] tests: it is bound
    after any number of calls only if it was bound before. *)
Lemma tested_name_stays_unbound ops σ :
  inst_dict (after_all env self ops σ) !! "__version"
  = inst_dict σ !! "__version".
Proof.
  apply (after_all_respects (same_attr "__version") (same_attr_refl _)
           (same_attr_trans _) (λ _, True) (λ _ _ _, I) (λ _ _ _, True)).
  apply same_attr_scope. rewrite !not_elem_of_cons.
  repeat split; try done. apply not_elem_of_nil.
Qed.
End surface.
End Surface.

(* ===================================================================== *)
(** ** Properties of the specification *)
(* ===================================================================== *)

Import Fs FsFacts Str StrFacts VersionFacts Wheels Notions WheelsFacts.
Import VersionTheory ScopeTheory Surface.

(** *** The version resolver *)

(** C5.  When the project root holds no [.git/config], [version()]
    returns the released version that the instance was constructed
    with, unchanged, and does nothing else.  The first premise says
    that no attribute of the instance is called [__version]; no method
    creates one ([tested_name_stays_unbound]). *)
Theorem version_without_git_is_released (env : Env) (self : Wheels) (σ : State) :
  inst_dict σ !! "__version" = None →
  exists_ (git_config env) (fs σ) = false →
  version env self σ = (Ok (_released_version self), σ).
Proof. apply version_unmanaged. Qed.

(** Released version [0.1.0] and a project unpacked from a release
    archive: [version()] is [0.1.0]. *)
Lemma version_without_git_is_released_witness :
  let E := Scenario.env Scenario.on_tag Scenario.one_wheel in
  let σ := init Scenario.release_archive in
  inst_dict σ !! "__version" = None
  ∧ exists_ (git_config E) (fs σ) = false
  ∧ version E Scenario.wheels σ = (Ok "0.1.0", σ).
Proof.
  intros E σ. split; [reflexivity|]. split; [reflexivity|].
  apply (version_without_git_is_released E Scenario.wheels σ); reflexivity.
Defined.

(** C3.  In a source-control-managed project, a string that [version()]
    returns parses as a semantic version, with the parser that the
    code uses (line 58) and by the standard grammar as well, and is a
    valid PEP 440 version; when [version()] does not return, what it
    raises is the fatal [OSError].  The tag that the source-control
    tool prints may be any that the parser of the library takes, with
    a wildcard, without a patch number, or with digits of another
    script. *)
Theorem computed_version_parses_under_both_schemes
    (env : Env) (self : Wheels) (σ σ' : State) (r : result string) :
  inst_dict σ !! "__version" = None →
  exists_ (git_config env) (fs σ) = true →
  version env self σ = (r, σ') →
  match r with
  | Ok s => is_ok (SemVer.parse s) = true
            ∧ SemVer.standard s = true
            ∧ Pep440.valid s = true
  | Raise e => exn_cls e = OSError
  end.
Proof.
  intros Hd Hg. rewrite version_managed by done. unfold try_except.
  destruct (version_try env σ) as [[s|e] σ1] eqn:Htry.
  - intros [= <- <-].
    apply version_try_ok in Htry as (g & dv & t & Hparse & -> & Hok).
    split; [done|]. split.
    + by apply composed_standard;
        [apply strftime_nonempty|apply strftime_digits|].
    + by apply composed_pep440;
        [apply strftime_nonempty|apply strftime_digits|].
  - unfold version_except, raise. by intros [= <- <-].
Qed.

(** Four commits after tag [v1.2.3]. *)
Lemma computed_version_parses_under_both_schemes_witness :
  let E := Scenario.env Scenario.after_tag Scenario.one_wheel in
  let σ := init Scenario.checkout in
  inst_dict σ !! "__version" = None
  ∧ exists_ (git_config E) (fs σ) = true
  ∧ (version E Scenario.wheels σ).1 = Ok "1.2.4+420240101120001"
  ∧ is_ok (SemVer.parse "1.2.4+420240101120001") = true
  ∧ SemVer.standard "1.2.4+420240101120001" = true
  ∧ Pep440.valid "1.2.4+420240101120001" = true.
Proof.
  intros E σ. split; [reflexivity|]. split; [reflexivity|].
  split; [vm_compute; reflexivity|].
  apply (computed_version_parses_under_both_schemes E Scenario.wheels σ
           (version E Scenario.wheels σ).2 (Ok "1.2.4+420240101120001"));
    [reflexivity|reflexivity|vm_compute; reflexivity].
Defined.

(** Four commits after tag [v1.2]: the patch number that the tag leaves
    out counts as 0, and the version is [1.2.1+4] followed by the
    stamp. *)
Example version_after_short_tag :
  let E := Scenario.env Scenario.after_short_tag Scenario.one_wheel in
  (version E Scenario.wheels (init Scenario.checkout)).1
  = Ok "1.2.1+420240101120001".
Proof. vm_compute. reflexivity. Qed.

(** The check on line 58 is not idle.  A pre-release may begin with
    decimal digits of any script, build metadata may not hold any: the
    tag [v1.2.3-] followed by an Arabic-Indic three and [a-4-gabcdef0]
    parses on line 49, the string composed from it does not parse on
    line 58, and [version()] raises. *)
Example composed_version_is_checked :
  let E := Scenario.env Scenario.after_foreign_tag Scenario.one_wheel in
  let tag := "v1.2.3-" +:+ Scenario.arabic_three +:+ "a-4-gabcdef0" in
  let composed := "1.2.4+" +:+ Scenario.arabic_three +:+ "a20240101120001" in
  SemVer.pre_release <$> (match SemVer.parse tag with
                          | Ok dv => Some dv
                          | Raise _ => None
                          end)
  = Some (Some (Scenario.arabic_three +:+ "a-4-gabcdef0"))
  ∧ (version E Scenario.wheels (init Scenario.checkout)).1
    = Raise (Exn OSError
               (cannot_determine "databrickslabs" "blueprint"
                  ("Not a valid SemVer: v" +:+ composed))).
Proof. vm_compute. done. Qed.

(** C6.  In a source-control-managed project, when the attempt to
    compute the version raises [err] (the tool cannot be started or
    exits with an error, its output is not a version, the composed
    string is not a version), [version()] raises an [OSError] whose
    message holds the address of the issue tracker, the address of the
    releases page and the text of [err]; the tool has been started
    once and is not started again. *)
Theorem version_failure_is_reported
    (env : Env) (self : Wheels) (σ σ' : State) (err : exn) :
  inst_dict σ !! "__version" = None →
  exists_ (git_config env) (fs σ) = true →
  version_try env σ = (Raise err, σ') →
  let org := _github_org self in
  let prod := product (_install_state self) in
  let msg := cannot_determine org prod (exn_str err) in
  version env self σ = (Raise (Exn OSError msg), σ')
  ∧ contains (issues_url org prod) msg
  ∧ contains (releases_url org prod) msg
  ∧ contains (exn_str err) msg
  ∧ ∃ rc, trace σ' = trace σ ++ [EvRun git_describe_argv PIPE Inherit rc].
Proof.
  intros Hd Hg Htry. simpl. split.
  - rewrite version_managed by done. unfold try_except. by rewrite Htry.
  - split; [apply message_has_issues_url|].
    split; [apply message_has_releases_url|].
    split; [apply message_has_cause|].
    destruct (version_try_trace env σ) as [rc Hrc]. exists rc.
    by rewrite Htry in Hrc.
Qed.

(** A checkout without any tag: the tool exits with status 128. *)
Lemma version_failure_is_reported_witness :
  let E := Scenario.env Scenario.no_tags Scenario.one_wheel in
  let σ := init Scenario.checkout in
  let err := called_process_error git_describe_argv 128 in
  let msg := cannot_determine "databrickslabs" "blueprint" (exn_str err) in
  (version E Scenario.wheels σ).1 = Raise (Exn OSError msg)
  ∧ contains "https://github.com/databrickslabs/blueprint/issues/new" msg
  ∧ contains "https://github.com/databrickslabs/blueprint/releases" msg
  ∧ contains (exn_str err) msg.
Proof.
  intros E σ err msg.
  destruct (version_failure_is_reported E Scenario.wheels σ
              (version_try E σ).2 err) as (Hv & Hi & Hr & Hc & _);
    [reflexivity|reflexivity|vm_compute; reflexivity|].
  split; [by rewrite Hv|]. done.
Defined.

(** C1 (the code departs from it).  The claim is that two calls of
    [version()] on one instance return the same string, the first
    result being cached.  Four commits after tag [v1.2.3], with the
    clock moving between the calls, the second call runs the tool again
    and returns a string with a later stamp: line 40 tests the name
    [__version], line 59 binds [_Wheels__version]. *)
Theorem version_twice_gives_two_strings :
  let E := Scenario.env Scenario.after_tag Scenario.one_wheel in
  let twice := v1 <~ version E Scenario.wheels ;;
               v2 <~ version E Scenario.wheels ;;
               ret (v1, v2) in
  (twice (init Scenario.checkout)).1
  = Ok ("1.2.4+420240101120001", "1.2.4+420240101120003")
  ∧ mangle "Wheels" "__version" = "_Wheels__version"
  ∧ inst_dict (twice (init Scenario.checkout)).2 !! "__version" = None
  ∧ inst_dict (twice (init Scenario.checkout)).2 !! "_Wheels__version"
    = Some (VStr "1.2.4+420240101120003").
Proof. vm_compute. done. Qed.

(** C2 (the code departs from it).  The claim is that on tag [v1.2.3]
    itself the version is [1.2.4+] followed by the fourteen digits of
    the stamp.  The absent marker is [None], and the f-string on line 56
    prints it: the version is [1.2.4+None] followed by the stamp. *)
Theorem version_on_tag_prints_None :
  let E := Scenario.env Scenario.on_tag Scenario.one_wheel in
  (version E Scenario.wheels (init Scenario.checkout)).1
  = Ok "1.2.4+None20240101120001"
  ∧ strftime_YmdHMS (now E 1) = "20240101120001".
Proof. vm_compute. done. Qed.

(** *** The builder *)

(** [project_root / ".git" / "config"] of the builder is the
    [project_root / ".git/config"] of the resolver. *)
Lemma builder_git_config (env : Env) :
  joinpath (joinpath (find_project_root env) ".git") "config" = git_config env.
Proof. unfold git_config, joinpath. simpl. by rewrite <-app_assoc. Qed.

(** The build leaves what stands at the project root as it is, when the
    temporary directory and the project root lie apart, the path of the
    version file does not climb out of the copy by a [..], and the
    child processes do not write into the project. *)
Lemma build_leaves_project (env : Env) (self : Wheels) (tmp_dir : path)
    (verbose : bool) (σ : State) :
  let root := find_project_root env in
  let version_file :=
    joinpath (joinpath tmp_dir "working-copy")
      (about_file (product (_install_state self))) in
  diverge tmp_dir root = true →
  ".." ∉ version_file →
  exec_leaves root env →
  lookup root (fs (_build_wheel env self tmp_dir verbose σ).2)
  = lookup root (fs σ).
Proof.
  intros root version_file Hdiv Hup Hexec.
  assert (version_file
          = (tmp_dir ++ ["working-copy"])
            ++ parts (about_file (product (_install_state self)))) as Hvf
    by reflexivity.
  apply (respects_build_wheel (same_tree root) (same_tree_refl _)
           (same_tree_trans _) (λ p, diverge p root = true ∧ ".." ∉ p)
           (λ _ _ _, True)
           env self tmp_dir verbose (same_tree_build root env Hexec)).
  - split; [by apply diverge_app_l|].
    rewrite Hvf in Hup. by apply not_elem_of_app in Hup as [? _].
  - split; [|exact Hup].
    apply (diverge_app_l (tmp_dir ++ ["working-copy"]) root
             (parts (about_file (product (_install_state self))))).
    by apply diverge_app_l.
  - done.
Qed.

(** The premise on [..] cannot be dropped.  A product name is text
    that line 115 joins into the path, and with one that climbs out of
    the copy the file written on lines 116-117 is the version file of
    the project: the copy keeps the old text, the project gets the new
    one. *)
Example climbing_product_reaches_project :
  let E := Scenario.env Scenario.after_tag Scenario.one_wheel in
  let σ := (TemporaryDirectory E (init Scenario.checkout)).2 in
  let built := _build_wheel E Scenario.climbing Scenario.tmp false σ in
  is_ok built.1 = true
  ∧ lookup Scenario.original_about (fs built.2)
    = Some (File (version_statement "1.2.4+420240101120004"))
  ∧ lookup Scenario.copied_about (fs built.2)
    = Some (File (version_statement "0.1.0")).
Proof. vm_compute. done. Qed.

(** Without [.git/config], or with a version that holds no [+], the
    builder copies nothing and writes no version file: it logs, and
    starts the packaging tool on the project root itself. *)
Lemma build_without_copy (env : Env) (self : Wheels) (tmp_dir : path)
    (σ σ1 : State) (v : string) :
  version env self σ = (Ok v, σ1) →
  exists_ (git_config env) (fs σ1) && mem "+" v = false →
  run_packaging_tool env self tmp_dir false σ
  = (emit (EvLog "DEBUG" ("Building wheel for "
                          +:+ as_posix (find_project_root env) +:+ " in "
                          +:+ as_posix tmp_dir)) ;;;
     subprocess_run env (pip_wheel_argv env tmp_dir (find_project_root env))
       DEVNULL DEVNULL true) σ1.
Proof.
  intros Hv Hcond. unfold run_packaging_tool. simpl.
  unfold bind at 1. rewrite Hv.
  unfold bind at 1, path_exists. rewrite builder_git_config.
  unfold bind at 1. by rewrite Hcond.
Qed.

(** C4 (the code departs from it).  The claim is that the version file
    of the copy holds the resolved version, the one whose [+] made the
    builder copy the tree, and that the original is left as it was.
    The builder resolves the version a second time for the text it
    writes (line 117), and nothing is cached: the version tested on
    line 109, the version written to the copy and the version that the
    caller gets afterwards are three different strings.  The original
    version file is untouched. *)
Theorem copy_holds_another_version :
  let E := Scenario.env Scenario.after_tag Scenario.one_wheel in
  let σ := (TemporaryDirectory E (init Scenario.checkout)).2 in
  let built := _build_wheel E Scenario.wheels Scenario.tmp false σ in
  (version E Scenario.wheels σ).1 = Ok "1.2.4+420240101120002"
  ∧ built.1 = Ok (Scenario.tmp ++ ["blueprint-1.2.4-py3-none-any.whl"])
  ∧ lookup Scenario.copied_about (fs built.2)
    = Some (File (version_statement "1.2.4+420240101120004"))
  ∧ (version E Scenario.wheels built.2).1 = Ok "1.2.4+420240101120007"
  ∧ lookup Scenario.original_about (fs built.2)
    = Some (File (version_statement "0.1.0")).
Proof. vm_compute. done. Qed.

(** C9.  Once the packaging tool has exited with status 0, the builder
    returns the first entry of the temporary directory, in enumeration
    order, whose name ends with [.whl]: it raises [StopIteration] when
    there is none, and with several it returns the first and does not
    raise. *)
Theorem build_picks_first_wheel (env : Env) (self : Wheels) (tmp_dir : path)
    (verbose : bool) (σ σ1 : State) (cp : CompletedProcess) :
  run_packaging_tool env self tmp_dir verbose σ = (Ok cp, σ1) →
  cp_returncode cp = 0%Z
  ∧ (glob_suffix tmp_dir ".whl" (fs σ1) = [] →
     _build_wheel env self tmp_dir verbose σ
     = (Raise (Exn StopIteration ""), σ1))
  ∧ (∀ w rest, glob_suffix tmp_dir ".whl" (fs σ1) = w :: rest →
     _build_wheel env self tmp_dir verbose σ = (Ok w, σ1)
     ∧ ∃ es nm x, lookup tmp_dir (fs σ1) = Some (Dir es) ∧ (nm, x) ∈ es
                  ∧ w = tmp_dir ++ [nm] ∧ endswith ".whl" nm = true).
Proof.
  intros Hrun. split; [by eapply run_packaging_tool_ok|].
  rewrite (build_wheel_after_tool _ _ _ _ _ _ _ Hrun). split.
  - by intros ->.
  - intros w rest Hg. rewrite Hg. split; [done|].
    apply glob_suffix_spec. rewrite Hg. by left.
Qed.

(** The tool leaves two wheels: the first one enumerated is returned. *)
Lemma build_picks_first_wheel_witness :
  let E := Scenario.env Scenario.after_tag Scenario.two_wheels in
  let σ := (TemporaryDirectory E (init Scenario.checkout)).2 in
  let σ1 := (run_packaging_tool E Scenario.wheels Scenario.tmp false σ).2 in
  glob_suffix Scenario.tmp ".whl" (fs σ1)
  = [Scenario.tmp ++ ["blueprint-1.2.4-py3-none-any.whl"];
     Scenario.tmp ++ ["blueprint-1.2.3-py3-none-any.whl"]]
  ∧ _build_wheel E Scenario.wheels Scenario.tmp false σ
    = (Ok (Scenario.tmp ++ ["blueprint-1.2.4-py3-none-any.whl"]), σ1).
Proof.
  intros E σ σ1. split; [vm_compute; reflexivity|].
  destruct (build_picks_first_wheel E Scenario.wheels Scenario.tmp false σ σ1
              {| cp_returncode := 0; cp_stdout := None |}) as (_ & _ & Hpick);
    [vm_compute; reflexivity|].
  apply (Hpick _ [Scenario.tmp ++ ["blueprint-1.2.3-py3-none-any.whl"]]).
  vm_compute. reflexivity.
Defined.

(** The tool exits with status 0 and leaves no wheel: the builder
    raises. *)
Example build_without_wheel_raises :
  let E := Scenario.env Scenario.after_tag Scenario.no_wheel in
  let σ := (TemporaryDirectory E (init Scenario.checkout)).2 in
  (_build_wheel E Scenario.wheels Scenario.tmp false σ).1
  = Raise (Exn StopIteration "").
Proof. vm_compute. reflexivity. Qed.

(** *** The scope *)



(** *** The uploads *)

(** C8.  After [__enter__] has returned, with the artifact it selected
    a regular file, each of the two upload methods returns
    [<install folder>/wheels/<artifact file name>], the same string for
    both; each creates the parent directory of that path on its store
    before it transfers the file, with overwriting allowed; and a second
    call right after the first returns the same path again. *)
Theorem uploads_return_remote_path (env : Env) (self : Wheels) (σ σ1 : State) :
  __enter__ env self σ = (Ok tt, σ1) →
  ∃ wheel rest,
    glob_suffix (mkdtemp env (tick σ)) ".whl" (fs σ1) = wheel :: rest
    ∧ ∀ content, lookup wheel (fs σ1) = Some (File content) →
      let remote := install_folder (_install_state self) +:+ "/wheels/"
                    +:+ name wheel in
      ∀ t, ∃ σ2 σ3,
        upload t σ1 = (Ok remote, σ2)
        ∧ upload t σ2 = (Ok remote, σ3)
        ∧ trace σ2 = trace σ1 ++ [EvMkdirs t (dirname remote);
                                  upload_log t remote;
                                  EvUpload t remote content true (upload_format t)]
        ∧ dirname remote ∈ r_dirs (get_remote t σ2)
        ∧ r_files (get_remote t σ2) !! remote = Some content
        ∧ r_files (get_remote t σ3) !! remote = Some content.
Proof.
  intros (_ & _ & wheel & rest & Hglob & Hw & Hr & Hd)%enter_ok.
  exists wheel, rest. split; [done|]. intros content Hfile remote t.
  assert (holds_artifact self wheel content σ1) as Hh by done.
  destruct (upload_ok self t wheel content σ1 Hh)
    as (σ2 & Hup1 & Hh2 & Htrace & Hdir & Hfile2).
  destruct (upload_ok self t wheel content σ2 Hh2)
    as (σ3 & Hup2 & _ & _ & _ & Hfile3).
  by exists σ2, σ3.
Qed.

(** The parent directory is the [wheels] folder when the file name holds
    no slash. *)
Lemma dirname_head_file a nm :
  mem "/" nm = false → dirname_head (a +:+ String "/" nm) = a +:+ "/".
Proof.
  intros Hnm. induction a as [|c a IH].
  - change ("" +:+ String "/" nm) with (String "/" nm). cbn [dirname_head].
    by rewrite Hnm, decide_True.
  - assert (mem "/" (a +:+ String "/" nm) = true) as Hmem.
    { clear. induction a as [|d a IH]; [done|].
      rewrite append_String. cbn [mem]. by destruct (decide _). }
    rewrite !append_String. cbn [dirname_head]. by rewrite Hmem, IH.
Qed.

Lemma rstrip_keeps a b c :
  rstrip c b ≠ "" → rstrip c (a +:+ b) = a +:+ rstrip c b.
Proof.
  intros Hb. induction a as [|d a IH]; [done|].
  rewrite !append_String. cbn [rstrip]. rewrite IH.
  destruct (a +:+ rstrip c b) eqn:Heq; [|done].
  destruct a; [|done]. by destruct Hb.
Qed.

Lemma all_slashes_wheels folder :
  all (is_char "/") (folder +:+ "/wheels/") = false.
Proof.
  rewrite all_app. change (all (is_char "/") "/wheels/") with false.
  apply andb_false_r.
Qed.

Lemma remote_dir_is_wheels_folder (self : Wheels) (wheel : path) :
  mem "/" (name wheel) = false →
  dirname (remote_path self wheel)
  = install_folder (_install_state self) +:+ "/wheels".
Proof.
  intros Hnm. unfold remote_path, dirname.
  change ("/wheels/" +:+ name wheel) with ("/wheels" +:+ String "/" (name wheel)).
  rewrite <-append_assoc, dirname_head_file by done.
  rewrite append_assoc. change ("/wheels" +:+ "/") with "/wheels/".
  rewrite all_slashes_wheels. by rewrite rstrip_keeps.
Qed.

(** The scenario: both stores, twice each. *)
Lemma uploads_return_remote_path_witness :
  let E := Scenario.env Scenario.after_tag Scenario.one_wheel in
  let σ1 := (__enter__ E Scenario.wheels (init Scenario.checkout)).2 in
  let remote := "/Users/me/.blueprint/wheels/blueprint-1.2.4-py3-none-any.whl" in
  let twice t :=
    ∃ σ2 σ3,
      upload t σ1 = (Ok remote, σ2) ∧ upload t σ2 = (Ok remote, σ3)
      ∧ "/Users/me/.blueprint/wheels" ∈ r_dirs (get_remote t σ2) in
  twice DBFS ∧ twice WSFS.
Proof.
  intros E σ1 remote twice.
  destruct (uploads_return_remote_path E Scenario.wheels
              (init Scenario.checkout) σ1) as (wheel & rest & Hglob & Hup);
    [vm_compute; reflexivity|].
  vm_compute in Hglob. injection Hglob as <- _.
  split.
  - destruct (Hup "PK" ltac:(vm_compute; reflexivity) DBFS)
      as (σ2 & σ3 & H1 & H2 & _ & Hdir & _).
    exists σ2, σ3. split; [exact H1|]. split; [exact H2|]. exact Hdir.
  - destruct (Hup "PK" ltac:(vm_compute; reflexivity) WSFS)
      as (σ2 & σ3 & H1 & H2 & _ & Hdir & _).
    exists σ2, σ3. split; [exact H1|]. split; [exact H2|]. exact Hdir.
Defined.

(** *** Verbosity *)

(** C10.  Whatever sequence of public calls is made on an instance,
    every child process that is started is either the source-control
    query or the packaging tool with its standard output and its
    standard error discarded: [__enter__] builds with [verbose] false,
    and no public call takes a flag that would change it. *)
Theorem public_surface_builds_quietly (env : Env) (self : Wheels)
    (ops : list public_op) (σ : State) :
  ∃ evs, trace (after_all env self ops σ) = trace σ ++ evs
         ∧ Forall (quiet env) evs.
Proof.
  apply (after_all_respects env self (extends (quiet env))
           (extends_refl _) (extends_trans _) (λ _, True) (λ _ _ _, I)
           (λ argv o e, ∀ rc, quiet env (EvRun argv o e rc))).
  apply extends_scope; try done.
  - intros rc. by left.
  - intros tmp root rc. right. eauto.
Qed.

(** The flag matters: the same builder called with [verbose] true asks
    for both streams of the tool on [subprocess.STDOUT]; the tool is
    not run with them, the call raises. *)
Example verbose_build_is_not_quiet :
  let E := Scenario.env Scenario.after_tag Scenario.one_wheel in
  let σ := (TemporaryDirectory E (init Scenario.checkout)).2 in
  let built := _build_wheel E Scenario.wheels Scenario.tmp true σ in
  last (trace built.2)
  = Some (EvRun (pip_wheel_argv E Scenario.tmp (Scenario.tmp ++ ["working-copy"]))
            STDOUT STDOUT None)
  ∧ built.1 = Raise bad_file_descriptor.
Proof. vm_compute. done. Qed.

(* ===================================================================== *)
(** ** Further properties of the code *)
(* ===================================================================== *)

(** What the methods do beyond the properties above: the facts that the
    statements below rest on first, then the statements, method by
    method. *)
Module CoverageFacts.
Import Coverage.

Lemma bind_assoc {A B C} (m : M A) (k : A → M B) (h : B → M C) σ :
  bind (bind m k) h σ = bind m (λ a, bind (k a) h) σ.
Proof. unfold bind. by destruct (m σ) as [[a|e] σ']. Qed.

Lemma bind_ext {A B} (m : M A) (k k' : A → M B) σ :
  (∀ a σ', k a σ' = k' a σ') → bind m k σ = bind m k' σ.
Proof. intros H. unfold bind. destruct (m σ) as [[a|e] σ']; [apply H|done]. Qed.

(** [_build_wheel] up to the return of the tool is the staging of the
    project followed by the start of the tool. *)
Lemma run_packaging_tool_stages env self tmp_dir verbose σ :
  run_packaging_tool env self tmp_dir verbose σ
  = (project_root <~ stage_project env self tmp_dir ;;
     start_tool env tmp_dir verbose project_root) σ.
Proof.
  unfold stage_project. rewrite bind_assoc.
  unfold run_packaging_tool, start_tool.
  destruct verbose; simpl; apply bind_ext; intros v σ1;
    rewrite bind_assoc; apply bind_ext; intros managed σ2; reflexivity.
Qed.

Lemma composed_has_plus dv ds : mem "+" (semver_and_pep0440 dv ds) = true.
Proof.
  unfold semver_and_pep0440. rewrite !mem_app.
  change (mem "+" "+") with true. by rewrite !orb_true_r.
Qed.

Lemma git_config_path env :
  git_config env = find_project_root env ++ [".git"; "config"].
Proof. reflexivity. Qed.

Lemma working_copy_path tmp_dir : working_copy tmp_dir = tmp_dir ++ ["working-copy"].
Proof. reflexivity. Qed.

Lemma copy_about_path self tmp_dir :
  copy_about self tmp_dir
  = working_copy tmp_dir ++ parts (about_file (product (_install_state self))).
Proof. reflexivity. Qed.

(** What stands below [root] is as it was when [root] is. *)
Lemma managed_kept env n n' :
  lookup (find_project_root env) n' = lookup (find_project_root env) n →
  exists_ (git_config env) n' = exists_ (git_config env) n.
Proof.
  intros H. unfold exists_. by rewrite git_config_path, !lookup_app, H.
Qed.

Lemma diverge_common p r q : diverge (p ++ r) (p ++ q) = diverge r q.
Proof. induction p as [|c p IH]; [done|]. simpl. by rewrite decide_True. Qed.

Lemma read_only_keeps root env argv : read_only env argv → tool_keeps root env argv.
Proof. intros H t n rc out n' Hx. by rewrite (H _ _ _ _ _ Hx). Qed.

Lemma same_fs_refl σ : same_fs σ σ.
Proof. done. Qed.

Lemma same_fs_trans a b c : same_fs a b → same_fs b c → same_fs a c.
Proof. unfold same_fs. congruence. Qed.

(** The steps of the builder keep the project when the tools do and
    the places written to are apart from it and reached without [..]. *)
Lemma same_tree_tools root env :
  tool_keeps root env git_describe_argv →
  build_steps (same_tree root) (λ p, diverge p root = true ∧ ".." ∉ p)
    (λ argv _ _, tool_keeps root env argv) env.
Proof.
  intros Hgit. split; try done.
  - intros argv o e c Hk σ. unfold subprocess_run.
    destruct o; try done;
      (destruct (exec _ _ _ _) eqn:Hx; [done|]);
      apply Hk in Hx; by case_match.
  - intros src dst [Hd _] σ. unfold copytree.
    destruct (lookup src _) as [[|es]|]; try done.
    destruct (exists_ _ _); [done|].
    destruct (put_parents _ _ _) eqn:Hp; [|done].
    by eapply lookup_put_parents_diverge.
  - intros p c [Hd Hp] σ. unfold write_file. rewrite resolve_names by done.
    destruct (lookup p _) as [[|es]|];
      try done; (destruct (put _ _ _) eqn:Hput; [|done]);
      by eapply lookup_put_diverge.
Qed.

(** The steps of [version] leave every file alone when the
    source-control query does. *)
Lemma same_fs_version env :
  read_only env git_describe_argv →
  build_steps same_fs (λ _, False) (λ argv _ _, read_only env argv) env.
Proof.
  intros Hgit. split; try done.
  intros argv o e c Hk σ. unfold subprocess_run, same_fs.
  destruct o; try done;
    (destruct (exec _ _ _ _) eqn:Hx; [done|]);
    apply Hk in Hx; subst; by case_match.
Qed.

Lemma version_keeps_fs env self σ :
  read_only env git_describe_argv → fs (version env self σ).2 = fs σ.
Proof.
  intros Hgit.
  apply (respects_version same_fs same_fs_refl same_fs_trans _ _ env self
           (same_fs_version env Hgit)).
Qed.

Lemma version_keeps_tested_name env self σ :
  inst_dict (version env self σ).2 !! "__version" = inst_dict σ !! "__version".
Proof.
  apply (respects_version (same_attr "__version") (same_attr_refl _)
           (same_attr_trans _) _ _ env self
           (same_attr_build "__version" env ltac:(done))).
Qed.

(** A version that [version] returns in a managed project holds a [+],
    parses under both schemes and is what the instance stores. *)
Lemma version_managed_ok env self σ v σ' :
  inst_dict σ !! "__version" = None →
  exists_ (git_config env) (fs σ) = true →
  version env self σ = (Ok v, σ') →
  mem "+" v = true
  ∧ is_ok (SemVer.parse v) = true ∧ Pep440.valid v = true
  ∧ inst_dict σ' !! "_Wheels__version" = Some (VStr v).
Proof.
  intros Hd Hg. rewrite version_managed by done. unfold try_except.
  destruct (version_try env σ) as [[s|e] σ1] eqn:Htry; [|done].
  intros [= <- <-].
  pose proof Htry as (g & dv & t & Hparse & Hs & Hok)%version_try_ok.
  split; [rewrite Hs; apply composed_has_plus|]. split; [done|]. split.
  - subst s. by apply composed_pep440;
      [apply strftime_nonempty|apply strftime_digits|].
  - revert Htry. unfold version_try. intros H.
    do 5 (apply bind_ok_inv in H as (? & ? & _ & H)).
    apply bind_ok_inv in H as ([] & σs & Hset & H).
    unfold ret in H. injection H as <- <-.
    unfold setattr in Hset. injection Hset as <-. simpl.
    by rewrite lookup_insert_eq.
Qed.

Lemma copytree_ok src dst σ σ' :
  copytree src dst σ = (Ok tt, σ') →
  ∃ es, lookup src (fs σ) = Some (Dir es)
        ∧ put_parents dst (Dir es) (fs σ) = Some (fs σ')
        ∧ inst_dict σ' = inst_dict σ.
Proof.
  unfold copytree. destruct (lookup src _) as [[|es]|]; try done.
  destruct (exists_ _ _); [done|].
  destruct (put_parents _ _ _) eqn:Hp; [|done]. intros [= <-]. eauto.
Qed.

(** What a successful write has done: the path led to a location
    where no directory stood, and the file stands there now. *)
Lemma write_file_ok p c σ σ' :
  write_file p c σ = (Ok tt, σ') →
  ∃ q, resolve p (fs σ) = At q
       ∧ (∀ es, lookup q (fs σ) ≠ Some (Dir es))
       ∧ put q (File c) (fs σ) = Some (fs σ')
       ∧ inst_dict σ' = inst_dict σ.
Proof.
  unfold write_file. destruct (resolve p _) as [q| |]; [|done..].
  destruct (lookup q _) as [[|es]|] eqn:Hq;
    try done; (destruct (put _ _ _) eqn:Hp; [|done]); intros [= <-];
    exists q; (split; [done|]); (split; [intros es'; by rewrite Hq|done]).
Qed.

Lemma write_file_at p c σ σ' :
  ".." ∉ p →
  write_file p c σ = (Ok tt, σ') →
  put p (File c) (fs σ) = Some (fs σ') ∧ inst_dict σ' = inst_dict σ.
Proof.
  intros Hp (q & Hq & _ & Hput & Hd)%write_file_ok.
  rewrite resolve_names in Hq by done. by injection Hq as <-.
Qed.

(** A successful write removes nothing: the project is still under
    source control after it. *)
Lemma write_file_keeps_managed env p c σ σ' :
  write_file p c σ = (Ok tt, σ') →
  exists_ (git_config env) (fs σ) = true →
  exists_ (git_config env) (fs σ') = true.
Proof.
  intros (q & _ & Hnd & Hput & _)%write_file_ok. by eapply put_file_exists.
Qed.

Lemma scenario_git_read_only describe outputs :
  read_only (Scenario.env describe outputs) git_describe_argv.
Proof.
  intros t n rc out n'. unfold exec, Scenario.env, Scenario.tools.
  rewrite decide_True by done. destruct describe; [done|]. by intros [= _ _ <-].
Qed.

Lemma scenario_version_file :
  ".." ∉ copy_about Scenario.wheels Scenario.tmp.
Proof. apply (bool_decide_unpack _). vm_compute. exact I. Qed.

Lemma scenario_pip_keeps describe outputs pr :
  tool_keeps ["repo"] (Scenario.env describe outputs)
    (pip_wheel_argv (Scenario.env describe outputs) Scenario.tmp pr).
Proof.
  intros t n rc out n'. unfold exec, Scenario.env, Scenario.tools.
  rewrite decide_False by done. unfold Scenario.pip.
  change (of_string (nth 6 _ "")) with Scenario.tmp.
  destruct (lookup Scenario.tmp n) as [[|es]|]; try by intros [= _ _ <-].
  destruct (put _ _ _) eqn:Hp; [|by intros [= _ _ <-]].
  intros [= _ _ <-]. by eapply lookup_put_diverge.
Qed.

Lemma version_except_trace env self σ :
  trace (try_except (version_try env) (version_except self) σ).2
  = trace (version_try env σ).2.
Proof. unfold try_except. by destruct (version_try env σ) as [[s|e] σ1]. Qed.

Lemma stage_project_released env self tmp_dir σ :
  inst_dict σ !! "__version" = None →
  exists_ (git_config env) (fs σ) = false →
  stage_project env self tmp_dir σ = (Ok (find_project_root env), σ).
Proof.
  intros Hd Hg. unfold stage_project.
  erewrite bind_run by (by apply version_unmanaged).
  unfold bind, path_exists. by rewrite builder_git_config, Hg.
Qed.

Lemma build_wheel_stages env self tmp_dir verbose σ :
  _build_wheel env self tmp_dir verbose σ
  = (project_root <~ stage_project env self tmp_dir ;;
     start_tool env tmp_dir verbose project_root ;;;
     wheels <~ glob tmp_dir ".whl" ;;
     next wheels) σ.
Proof.
  unfold _build_wheel, bind at 1. rewrite run_packaging_tool_stages.
  unfold bind. by destruct (stage_project _ _ _ _) as [[pr|e] σ1].
Qed.

Lemma exit_keeps_dict σ : inst_dict (__exit__ σ).2 = inst_dict σ.
Proof.
  unfold __exit__, bind, getattr, as_tmp_dir, cleanup, raise, ret.
  repeat case_match; by simplify_eq/=.
Qed.

Lemma no_enter_keeps_attr env self k ops σ :
  k ≠ "_Wheels__version" → Enter ∉ ops →
  inst_dict (after_all env self ops σ) !! k = inst_dict σ !! k.
Proof.
  intros Hk. revert σ. induction ops as [|op ops IH]; intros σ Hops; [done|].
  apply not_elem_of_cons in Hops as [Hop Hops].
  change (after_all env self (op :: ops) σ)
    with (after_all env self ops (after env self op σ)).
  rewrite IH by done. destruct op; simpl; [done|..].
  - by rewrite exit_keeps_dict.
  - apply (respects_version (same_attr k) (same_attr_refl _)
             (same_attr_trans _) _ _ env self (same_attr_build k env Hk)).
  - apply (respects_upload_to_dbfs (same_attr k) (same_attr_refl _)
             (same_attr_trans _) (same_attr_uploads k)).
  - apply (respects_upload_to_wsfs (same_attr k) (same_attr_refl _)
             (same_attr_trans _) (same_attr_uploads k)).
Qed.

Lemma upload_unbound t σ :
  inst_dict σ !! "_local_wheel" = None →
  upload t σ = (Raise (attribute_error "_local_wheel"), σ).
Proof.
  intros H. destruct t; unfold upload, upload_to_dbfs, upload_to_wsfs;
    unfold bind at 1; unfold bind at 1, getattr at 1; by rewrite H.
Qed.

Lemma exit_unbound σ :
  inst_dict σ !! "_tmp_dir" = None →
  __exit__ σ = (Raise (attribute_error "_tmp_dir"), σ).
Proof. intros H. unfold __exit__, bind, getattr. by rewrite H. Qed.

Lemma respects_upload_store (R : State → State → Prop) (t : storage) :
  (∀ σ, R σ σ) → (∀ a b c, R a b → R b c → R a c) →
  (∀ level msg, respects R (emit (EvLog level msg))) →
  (∀ d, respects R (remote_mkdirs t d)) →
  (∀ d c o f, respects R (remote_upload t d c o f)) →
  respects R (upload t).
Proof.
  intros R_refl R_trans Hlog Hmk Hup.
  destruct t; unfold upload, upload_to_dbfs, upload_to_wsfs;
    repeat first
      [ apply (respects_bind _ R_trans); [|intros ?]
      | apply (respects_ret _ R_refl) | apply (respects_as_str _ R_refl)
      | apply (respects_as_path _ R_refl) | apply (respects_getattr _ R_refl)
      | apply (respects_open_rb _ R_refl)
      | apply Hlog | apply Hmk | apply Hup ].
Qed.

Lemma keeps_but_store_refl t σ : keeps_but_store t σ σ.
Proof. by repeat split. Qed.

Lemma keeps_but_store_trans t a b c :
  keeps_but_store t a b → keeps_but_store t b c → keeps_but_store t a c.
Proof.
  intros (Hf & Hd & Ho & Hdirs & Hfiles) (Hf' & Hd' & Ho' & Hdirs' & Hfiles').
  repeat split; [congruence..|set_solver|auto].
Qed.

Lemma version_try_run env σ s σ' :
  version_try env σ = (Ok s, σ') →
  ∃ g dv n,
    exec env (tick σ) git_describe_argv (fs σ) = Exited 0 (Utf8 g) n
    ∧ SemVer.parse g = Ok dv
    ∧ s = semver_and_pep0440 dv (strftime_YmdHMS (now env (S (tick σ))))
    ∧ is_ok (SemVer.parse s) = true
    ∧ fs σ' = n ∧ tick σ' = S (S (tick σ))
    ∧ trace σ' = trace σ ++ [EvRun git_describe_argv PIPE Inherit (Some 0%Z)].
Proof.
  intros H. unfold version_try in H.
  apply bind_ok_inv in H as (out & σ1 & Hrun & H).
  apply bind_ok_inv in H as (g & σ2 & Hdec & H).
  apply bind_ok_inv in H as (dv & σ3 & Hp & H).
  apply bind_ok_inv in H as (ds & σ4 & Hnow & H).
  apply bind_ok_inv in H as (sv & σ5 & Hp2 & H).
  apply bind_ok_inv in H as ([] & σ6 & Hset & H).
  unfold ret in H. injection H as <- <-.
  unfold subprocess_run in Hrun.
  destruct (exec _ _ _ _) as [e|rc printed n]; [done|]. simpl in Hrun.
  destruct (rc =? 0)%Z eqn:Hrc; [|done]. apply Z.eqb_eq in Hrc as ->.
  simpl in Hrun. injection Hrun as <- <-. simpl in Hdec.
  destruct printed as [g'|why]; [|done]. unfold ret in Hdec.
  injection Hdec as <- <-.
  unfold lift in Hp, Hp2. injection Hp as Hp <-. injection Hp2 as Hp2 <-.
  unfold now_stamp in Hnow. injection Hnow as <- <-.
  unfold setattr in Hset. injection Hset as <-. simpl in *.
  exists g', dv, n. rewrite Hp2. by repeat split.
Qed.

Lemma version_managed_trace env self σ v σ' :
  inst_dict σ !! "__version" = None →
  exists_ (git_config env) (fs σ) = true →
  version env self σ = (Ok v, σ') →
  trace σ' = trace σ ++ [EvRun git_describe_argv PIPE Inherit (Some 0%Z)].
Proof.
  intros Hd Hg. rewrite version_managed by done. unfold try_except.
  destruct (version_try env σ) as [[s|e] σ1] eqn:Htry; [|done].
  intros [= <- <-].
  by apply version_try_run in Htry as (_ & _ & _ & _ & _ & _ & _ & _ & _ & ?).
Qed.

Lemma copytree_trace src dst σ : trace (copytree src dst σ).2 = trace σ.
Proof. unfold copytree. by repeat case_match. Qed.

Lemma write_file_trace p c σ : trace (write_file p c σ).2 = trace σ.
Proof. unfold write_file. by repeat case_match. Qed.

End CoverageFacts.

Import Coverage CoverageFacts.

(** *** The resolver *)

(** X1.  On an instance made by the constructor, whatever public
    methods have been called on it since and whatever they returned, a
    call of [version()] does the whole work again: in a
    source-control-managed project it starts the source-control query
    once more, and elsewhere it returns the released version and
    changes nothing.  No call ever answers from a stored version. *)
Theorem version_never_answers_from_store (env : Env) (self : Wheels)
    (root : node) (ops : list public_op) :
  let σ := after_all env self ops (init root) in
  if exists_ (git_config env) (fs σ)
  then ∃ rc, trace (version env self σ).2
             = trace σ ++ [EvRun git_describe_argv PIPE Inherit rc]
  else version env self σ = (Ok (_released_version self), σ).
Proof.
  intros σ.
  assert (inst_dict σ !! "__version" = None) as Hd
    by (unfold σ; by rewrite tested_name_stays_unbound).
  destruct (exists_ _ _) eqn:Hg.
  - rewrite version_managed, version_except_trace by done.
    apply version_try_trace.
  - by apply version_unmanaged.
Qed.

(** X2.  In a source-control-managed project, when [version()]
    returns, the source-control query exited with status 0 and printed
    a version that the parser takes, and what [version()] returns is
    composed from it: the major and the minor number as parsed, the
    patch number as parsed plus one (a patch number that the tag
    leaves out or gives as [x] counts as 0), a [+], the marker taken
    from the pre-release, and the clock's reading after the query.
    The [+] of the result is the one that line 56 puts: what stands
    before it is the three numbers, what stands after it the marker
    and the stamp. *)
Theorem version_is_composed_from_tag (env : Env) (self : Wheels)
    (σ σ' : State) (s : string) :
  inst_dict σ !! "__version" = None →
  exists_ (git_config env) (fs σ) = true →
  version env self σ = (Ok s, σ') →
  ∃ printed dv n,
    exec env (tick σ) git_describe_argv (fs σ) = Exited 0 (Utf8 printed) n
    ∧ SemVer.parse printed = Ok dv
    ∧ let marker := of_optional (new_commits_of (SemVer.pre_release dv)) in
      let stamp := strftime_YmdHMS (now env (S (tick σ))) in
      s = pretty (SemVer.major dv) +:+ "." +:+ pretty (SemVer.minor dv)
          +:+ "." +:+ pretty (SemVer.patch dv + 1)%N +:+ "+" +:+ marker
          +:+ stamp
      ∧ cut "+" s
        = (pretty (SemVer.major dv) +:+ "." +:+ pretty (SemVer.minor dv)
           +:+ "." +:+ pretty (SemVer.patch dv + 1)%N,
           Some (marker +:+ stamp)).
Proof.
  intros Hd Hg. rewrite version_managed by done. unfold try_except.
  destruct (version_try env σ) as [[s'|e] σ1] eqn:Htry; [|done].
  intros [= -> ->].
  apply version_try_run in Htry as (g & dv & n & Hx & Hp & Hs & Hok & _).
  exists g, dv, n. split; [done|]. split; [done|]. split; [done|].
  subst s. apply composed_cut.
Qed.

(** Four commits after tag [v1.2]. *)
Lemma version_is_composed_from_tag_witness :
  let E := Scenario.env Scenario.after_short_tag Scenario.one_wheel in
  let made := version E Scenario.wheels (init Scenario.checkout) in
  made.1 = Ok "1.2.1+420240101120001"
  ∧ cut "+" "1.2.1+420240101120001" = ("1.2.1", Some "420240101120001").
Proof.
  intros E made.
  destruct (version_is_composed_from_tag E Scenario.wheels
              (init Scenario.checkout) made.2 "1.2.1+420240101120001")
    as (printed & dv & n & Hx & Hp & Hs & Hcut).
  - reflexivity.
  - vm_compute. reflexivity.
  - vm_compute. reflexivity.
  - split; [vm_compute; reflexivity|].
    vm_compute in Hx. injection Hx as <- _.
    vm_compute in Hp. injection Hp as <-. exact Hcut.
Defined.

(** *** The builder *)

(** X3.  Outside source control (no [.git/config] below the project
    root) a build in a temporary directory named without [..] copies
    nothing and asks no source-control tool: the one process it goes
    for is the packaging tool, on the project root itself and on the
    files as they stood.  Without [verbose]: when the
    tool cannot be started the build raises that error; when it exits
    with a status other than 0 the build raises [CalledProcessError];
    otherwise the result is the first [*.whl] entry of the temporary
    directory as the tool left it, or [StopIteration] when there is
    none.  With [verbose] the tool is not run: the redirection asked
    for makes [subprocess.run] raise [OSError]. *)
Theorem released_build_runs_tool_on_project (env : Env) (self : Wheels)
    (tmp_dir : path) (verbose : bool) (σ : State) :
  inst_dict σ !! "__version" = None →
  exists_ (git_config env) (fs σ) = false →
  ".." ∉ tmp_dir →
  let root := find_project_root env in
  let argv := pip_wheel_argv env tmp_dir root in
  let built := _build_wheel env self tmp_dir verbose σ in
  let announced :=
    EvLog "DEBUG" ("Building wheel for " +:+ as_posix root +:+ " in "
                   +:+ as_posix tmp_dir) in
  if verbose then
    built.1 = Raise bad_file_descriptor ∧ fs built.2 = fs σ
    ∧ trace built.2 = trace σ ++ [announced; EvRun argv STDOUT STDOUT None]
  else
    match exec env (tick σ) argv (fs σ) with
    | SpawnFailed e =>
        built.1 = Raise e ∧ fs built.2 = fs σ
        ∧ trace built.2
          = trace σ ++ [announced; EvRun argv DEVNULL DEVNULL None]
    | Exited rc out n =>
        built.1 = (if (rc =? 0)%Z then pick (glob_suffix tmp_dir ".whl" n)
                   else Raise (called_process_error argv rc))
        ∧ fs built.2 = n
        ∧ trace built.2
          = trace σ ++ [announced; EvRun argv DEVNULL DEVNULL (Some rc)]
    end.
Proof.
  intros Hd Hg _ root argv built announced. subst built.
  rewrite build_wheel_stages.
  erewrite bind_run by (by apply stage_project_released).
  unfold start_tool, bind, emit, subprocess_run.
  destruct verbose; simpl; fold root argv announced.
  - by rewrite <-(assoc_L (++)).
  - destruct (exec env (tick σ) argv (fs σ)) as [e|rc out n].
    + simpl. by rewrite <-(assoc_L (++)).
    + destruct (rc =? 0)%Z; simpl.
      * unfold glob, next. simpl.
        destruct (glob_suffix _ _ _); simpl; by rewrite <-(assoc_L (++)).
      * by rewrite <-(assoc_L (++)).
Qed.

Lemma released_build_runs_tool_on_project_witness :
  let E := Scenario.env Scenario.no_tags Scenario.one_wheel in
  let σ := (TemporaryDirectory E (init Scenario.release_archive)).2 in
  let built := _build_wheel E Scenario.wheels Scenario.tmp false σ in
  built.1 = Ok (Scenario.tmp ++ ["blueprint-1.2.4-py3-none-any.whl"])
  ∧ trace built.2
    = [EvLog "DEBUG" "Building wheel for /repo in /tmp/tmpk3v9x1";
       EvRun (pip_wheel_argv E Scenario.tmp ["repo"]) DEVNULL DEVNULL (Some 0%Z)].
Proof.
  intros E σ built.
  assert (".." ∉ Scenario.tmp) as Hloc
    by (apply (bool_decide_unpack _); vm_compute; exact I).
  pose proof (released_build_runs_tool_on_project E Scenario.wheels
                Scenario.tmp false σ eq_refl eq_refl Hloc) as H.
  vm_compute in H. destruct H as (Hr & _ & Ht).
  split; [exact Hr|exact Ht].
Defined.

(** X4.  In a source-control-managed project whose source-control query
    changes no file, with the temporary directory apart from the
    project and a version file whose path holds no [..] (the product
    name does not climb out of the copy), when the staging of lines
    108-119 returns: the root it returns is [<tmp>/working-copy]; the
    version file of the copy holds [__version__ = "v"] for the version
    [v] that the second call of [version()] returned, which is the one
    the instance stores, holds a [+], passes the parser of line 58 and
    is a valid PEP 440 version; the project itself is as it was; and
    below the copy everything apart from the version file is what the
    project holds. *)
Theorem development_build_is_staged_in_a_copy (env : Env) (self : Wheels)
    (tmp_dir : path) (σ σ' : State) (pr : path) :
  let root := find_project_root env in
  inst_dict σ !! "__version" = None →
  exists_ (git_config env) (fs σ) = true →
  diverge tmp_dir root = true →
  ".." ∉ copy_about self tmp_dir →
  read_only env git_describe_argv →
  stage_project env self tmp_dir σ = (Ok pr, σ') →
  pr = working_copy tmp_dir
  ∧ (∃ v, lookup (copy_about self tmp_dir) (fs σ')
          = Some (File (version_statement v))
          ∧ inst_dict σ' !! "_Wheels__version" = Some (VStr v)
          ∧ mem "+" v = true
          ∧ is_ok (SemVer.parse v) = true ∧ Pep440.valid v = true)
  ∧ lookup root (fs σ') = lookup root (fs σ)
  ∧ ∀ q, diverge (parts (about_file (product (_install_state self)))) q = true →
         lookup (working_copy tmp_dir ++ q) (fs σ') = lookup (root ++ q) (fs σ).
Proof.
  intros root Hd Hg Hdiv Hup Hgit Hstage. unfold stage_project in Hstage.
  apply bind_ok_inv in Hstage as (v & σ1 & Hv & H).
  destruct (version_managed_ok _ _ _ _ _ Hd Hg Hv) as (Hplus & _).
  assert (fs σ1 = fs σ) as Hfs1.
  { pose proof (version_keeps_fs env self σ Hgit) as Hk. by rewrite Hv in Hk. }
  assert (inst_dict σ1 !! "__version" = None) as Hd1.
  { pose proof (version_keeps_tested_name env self σ) as Hk.
    rewrite Hv in Hk. simpl in Hk. by rewrite Hk. }
  apply bind_ok_inv in H as (m & σ1' & Hm & H).
  unfold path_exists in Hm. injection Hm as <- <-.
  rewrite builder_git_config, Hfs1, Hg, Hplus in H. simpl in H.
  apply bind_ok_inv in H as ([] & σ2 & Hcopy & H).
  apply bind_ok_inv in H as ([] & σ3 & Hw1 & H).
  apply bind_ok_inv in H as (v' & σ4 & Hv2 & H).
  apply bind_ok_inv in H as ([] & σ5 & Hw2 & H).
  unfold ret in H. injection H as <- <-.
  apply copytree_ok in Hcopy as (es & Hroot & Hput2 & Hdict2).
  apply (write_file_at _ _ _ _ Hup) in Hw1 as (Hput3 & Hdict3).
  apply (write_file_at _ _ _ _ Hup) in Hw2 as (Hput5 & Hdict5).
  fold (working_copy tmp_dir) in *. fold (copy_about self tmp_dir) in *.
  fold root in Hroot, Hput2.
  assert (diverge (working_copy tmp_dir) root = true) as Hdc
    by (by apply diverge_app_l).
  assert (diverge (copy_about self tmp_dir) root = true) as Hda
    by (by rewrite copy_about_path; apply diverge_app_l).
  assert (lookup root (fs σ3) = lookup root (fs σ)) as Hroot3.
  { rewrite (lookup_put_diverge _ _ _ _ _ Hput3 Hda).
    by rewrite (lookup_put_parents_diverge _ _ _ _ _ Hput2 Hdc), Hfs1. }
  assert (fs σ4 = fs σ3) as Hfs4.
  { pose proof (version_keeps_fs env self σ3 Hgit) as Hk. by rewrite Hv2 in Hk. }
  assert (inst_dict σ3 !! "__version" = None) as Hd3
    by (by rewrite Hdict3, Hdict2).
  assert (exists_ (git_config env) (fs σ3) = true) as Hg3.
  { rewrite <-Hg. by apply managed_kept. }
  destruct (version_managed_ok _ _ _ _ _ Hd3 Hg3 Hv2)
    as (Hplus' & Hsem & Hpep & Hstored).
  rewrite Hfs4 in Hput5.
  split; [done|]. split; [|split].
  - exists v'. rewrite (lookup_put _ _ _ _ Hput5), Hdict5. done.
  - by rewrite (lookup_put_diverge _ _ _ _ _ Hput5 Hda).
  - intros q Hq.
    assert (diverge (copy_about self tmp_dir) (working_copy tmp_dir ++ q) = true)
      as Hdq by (by rewrite copy_about_path, diverge_common).
    rewrite (lookup_put_diverge _ _ _ _ _ Hput5 Hdq).
    rewrite (lookup_put_diverge _ _ _ _ _ Hput3 Hdq).
    rewrite !lookup_app, (lookup_put_parents _ _ _ _ Hput2).
    by rewrite <-Hfs1, Hroot.
Qed.

Lemma development_build_is_staged_in_a_copy_witness :
  let E := Scenario.env Scenario.after_tag Scenario.one_wheel in
  let run := stage_project E Scenario.wheels Scenario.tmp
               (init Scenario.checkout) in
  run.1 = Ok (Scenario.tmp ++ ["working-copy"])
  ∧ lookup ["repo"] (fs run.2) = lookup ["repo"] Scenario.checkout
  ∧ lookup (Scenario.tmp ++ ["working-copy"; "pyproject.toml"]) (fs run.2)
    = Some (File "[project]").
Proof.
  intros E run.
  destruct (development_build_is_staged_in_a_copy E Scenario.wheels
              Scenario.tmp (init Scenario.checkout) run.2
              (Scenario.tmp ++ ["working-copy"]))
    as (_ & _ & Hroot & Hcopy).
  - reflexivity.
  - vm_compute. reflexivity.
  - vm_compute. reflexivity.
  - apply scenario_version_file.
  - apply scenario_git_read_only.
  - vm_compute. reflexivity.
  - split; [vm_compute; reflexivity|]. split; [exact Hroot|].
    change (Scenario.tmp ++ ["working-copy"; "pyproject.toml"])
      with (working_copy Scenario.tmp ++ ["pyproject.toml"]).
    rewrite (Hcopy ["pyproject.toml"]) by (vm_compute; reflexivity).
    vm_compute. reflexivity.
Defined.

(** X5.  In a source-control-managed project whose source-control
    query changes no file, with the temporary directory apart from the
    project, a build whose staging succeeds starts three processes, in
    this order: the source-control query, the source-control query
    again, and the packaging tool; and the packaging tool is started on
    [<tmp>/working-copy], never on the project root.  (With [verbose]
    the third call is made with these arguments and raises before the
    tool runs.) *)
Theorem development_build_runs_tool_on_copy (env : Env) (self : Wheels)
    (tmp_dir : path) (verbose : bool) (σ : State) :
  inst_dict σ !! "__version" = None →
  exists_ (git_config env) (fs σ) = true →
  diverge tmp_dir (find_project_root env) = true →
  read_only env git_describe_argv →
  is_ok (stage_project env self tmp_dir σ).1 = true →
  let copy := working_copy tmp_dir in
  ∃ rc,
    trace (_build_wheel env self tmp_dir verbose σ).2
    = trace σ
      ++ [EvRun git_describe_argv PIPE Inherit (Some 0%Z);
          EvRun git_describe_argv PIPE Inherit (Some 0%Z);
          EvLog "DEBUG" ("Building wheel for " +:+ as_posix copy +:+ " in "
                         +:+ as_posix tmp_dir);
          EvRun (pip_wheel_argv env tmp_dir copy) (stream verbose)
            (stream verbose) rc].
Proof.
  intros Hd Hg Hdiv Hgit Hok copy.
  destruct (stage_project env self tmp_dir σ) as [[pr|e] σ'] eqn:Hstage; [|done].
  assert (pr = copy
          ∧ trace σ' = trace σ
                       ++ [EvRun git_describe_argv PIPE Inherit (Some 0%Z);
                           EvRun git_describe_argv PIPE Inherit (Some 0%Z)])
    as [-> Htrace].
  { clear Hok. unfold stage_project in Hstage.
    apply bind_ok_inv in Hstage as (v & σ1 & Hv & H).
    destruct (version_managed_ok _ _ _ _ _ Hd Hg Hv) as (Hplus & _).
    pose proof (version_managed_trace _ _ _ _ _ Hd Hg Hv) as Ht1.
    assert (fs σ1 = fs σ) as Hfs1.
    { pose proof (version_keeps_fs env self σ Hgit) as Hk. by rewrite Hv in Hk. }
    assert (inst_dict σ1 !! "__version" = None) as Hd1.
    { pose proof (version_keeps_tested_name env self σ) as Hk.
      rewrite Hv in Hk. simpl in Hk. by rewrite Hk. }
    apply bind_ok_inv in H as (m & σ1' & Hm & H).
    unfold path_exists in Hm. injection Hm as <- <-.
    rewrite builder_git_config, Hfs1, Hg, Hplus in H. simpl in H.
    apply bind_ok_inv in H as ([] & σ2 & Hcopy & H).
    apply bind_ok_inv in H as ([] & σ3 & Hw1 & H).
    apply bind_ok_inv in H as (v' & σ4 & Hv2 & H).
    apply bind_ok_inv in H as ([] & σ5 & Hw2 & H).
    unfold ret in H. injection H as <- <-. split; [done|].
    pose proof (copytree_trace (find_project_root env)
                  (joinpath tmp_dir "working-copy") σ1) as Ht2.
    rewrite Hcopy in Ht2. simpl in Ht2.
    pose proof (write_file_trace
                  (joinpath (joinpath tmp_dir "working-copy")
                     (about_file (product (_install_state self)))) "" σ2) as Ht3.
    rewrite Hw1 in Ht3. simpl in Ht3.
    pose proof (write_file_trace
                  (joinpath (joinpath tmp_dir "working-copy")
                     (about_file (product (_install_state self))))
                  (version_statement v') σ4) as Ht5.
    rewrite Hw2 in Ht5. simpl in Ht5.
    apply copytree_ok in Hcopy as (es & Hroot & Hput2 & Hdict2).
    pose proof Hw1 as (q & _ & _ & _ & Hdict3)%write_file_ok.
    assert (diverge (working_copy tmp_dir) (find_project_root env) = true)
      as Hdc by (by apply diverge_app_l).
    assert (exists_ (git_config env) (fs σ2) = true) as Hg2.
    { rewrite <-Hg. apply managed_kept.
      by rewrite (lookup_put_parents_diverge _ _ _ _ _ Hput2 Hdc), Hfs1. }
    pose proof (write_file_keeps_managed env _ _ _ _ Hw1 Hg2) as Hg3.
    assert (inst_dict σ3 !! "__version" = None) as Hd3
      by (by rewrite Hdict3, Hdict2).
    pose proof (version_managed_trace _ _ _ _ _ Hd3 Hg3 Hv2) as Ht4.
    rewrite Ht5, Ht4, Ht3, Ht2, Ht1. by rewrite <-(assoc_L (++)). }
  rewrite build_wheel_stages. unfold bind at 1. rewrite Hstage.
  unfold start_tool, bind, emit, subprocess_run.
  destruct verbose; simpl; fold copy.
  { exists None. rewrite Htrace. by rewrite <-!(assoc_L (++)). }
  destruct (exec _ _ _ _) as [e|rc out n]; simpl.
  - exists None. rewrite Htrace. by rewrite <-!(assoc_L (++)).
  - exists (Some rc). destruct (rc =? 0)%Z; simpl.
    + unfold glob, next. simpl.
      destruct (glob_suffix _ _ _); simpl; rewrite Htrace;
        by rewrite <-!(assoc_L (++)).
    + rewrite Htrace. by rewrite <-!(assoc_L (++)).
Qed.

Lemma development_build_runs_tool_on_copy_witness :
  let E := Scenario.env Scenario.after_tag Scenario.one_wheel in
  let σ := (TemporaryDirectory E (init Scenario.checkout)).2 in
  ∃ rc,
    trace (_build_wheel E Scenario.wheels Scenario.tmp false σ).2
    = [EvRun git_describe_argv PIPE Inherit (Some 0%Z);
       EvRun git_describe_argv PIPE Inherit (Some 0%Z);
       EvLog "DEBUG"
         "Building wheel for /tmp/tmpk3v9x1/working-copy in /tmp/tmpk3v9x1";
       EvRun (pip_wheel_argv E Scenario.tmp (Scenario.tmp ++ ["working-copy"]))
         DEVNULL DEVNULL rc].
Proof.
  intros E σ.
  apply (development_build_runs_tool_on_copy E Scenario.wheels Scenario.tmp
           false σ).
  - reflexivity.
  - vm_compute. reflexivity.
  - vm_compute. reflexivity.
  - apply scenario_git_read_only.
  - vm_compute. reflexivity.
Defined.

(** X6.  A build leaves what stands at the project root as it is, when
    the temporary directory lies apart from the project, the path of
    the version file holds no [..], and neither the source-control
    query nor the packaging tool started with this temporary directory
    writes into the project: the copy and the version file are made
    below the temporary directory only. *)
Theorem build_writes_outside_project (env : Env) (self : Wheels)
    (tmp_dir : path) (verbose : bool) (σ : State) :
  let root := find_project_root env in
  diverge tmp_dir root = true →
  ".." ∉ copy_about self tmp_dir →
  tool_keeps root env git_describe_argv →
  (∀ project_root, tool_keeps root env (pip_wheel_argv env tmp_dir project_root)) →
  lookup root (fs (_build_wheel env self tmp_dir verbose σ).2)
  = lookup root (fs σ).
Proof.
  intros root Hdiv Hup Hgit Hpip.
  apply (respects_build_wheel (same_tree root) (same_tree_refl _)
           (same_tree_trans _) (λ p, diverge p root = true ∧ ".." ∉ p)
           (λ argv _ _, tool_keeps root env argv)
           env self tmp_dir verbose (same_tree_tools root env Hgit));
    [| |exact Hpip].
  - split; [by apply diverge_app_l|].
    rewrite copy_about_path in Hup. by apply not_elem_of_app in Hup as [? _].
  - split; [|exact Hup]. fold (working_copy tmp_dir).
    fold (copy_about self tmp_dir). rewrite copy_about_path.
    by do 2 apply diverge_app_l.
Qed.

Lemma build_writes_outside_project_witness :
  let E := Scenario.env Scenario.after_tag Scenario.one_wheel in
  let σ := (TemporaryDirectory E (init Scenario.checkout)).2 in
  lookup ["repo"] (fs (_build_wheel E Scenario.wheels Scenario.tmp false σ).2)
  = lookup ["repo"] Scenario.checkout.
Proof.
  intros E σ.
  etransitivity; [|vm_compute; reflexivity].
  apply (build_writes_outside_project E Scenario.wheels Scenario.tmp false σ).
  - vm_compute. reflexivity.
  - apply scenario_version_file.
  - apply read_only_keeps, scenario_git_read_only.
  - apply scenario_pip_keeps.
Defined.

(** X7.  In a source-control-managed project, when the resolver's
    [try] block raises, the build raises the [OSError] that carries
    that error's text, and the packaging tool is never started: the
    only process of the build is the source-control query. *)
Theorem failed_version_stops_build (env : Env) (self : Wheels)
    (tmp_dir : path) (verbose : bool) (σ : State) (err : exn) :
  inst_dict σ !! "__version" = None →
  exists_ (git_config env) (fs σ) = true →
  (version_try env σ).1 = Raise err →
  let built := _build_wheel env self tmp_dir verbose σ in
  built.1 = Raise (Exn OSError
                     (cannot_determine (_github_org self)
                        (product (_install_state self)) (exn_str err)))
  ∧ ∃ rc, trace built.2
          = trace σ ++ [EvRun git_describe_argv PIPE Inherit rc].
Proof.
  intros Hd Hg Herr built. subst built.
  assert (_build_wheel env self tmp_dir verbose σ
          = (Raise (Exn OSError
                      (cannot_determine (_github_org self)
                         (product (_install_state self)) (exn_str err))),
             (version_try env σ).2)) as ->.
  { rewrite build_wheel_stages. unfold stage_project, bind.
    rewrite version_managed by done. unfold try_except.
    destruct (version_try env σ) as [[s|e] σ1]; [done|].
    simpl in Herr. by injection Herr as ->. }
  split; [done|]. apply version_try_trace.
Qed.

Lemma failed_version_stops_build_witness :
  let E := Scenario.env Scenario.no_tags Scenario.one_wheel in
  let σ := (TemporaryDirectory E (init Scenario.checkout)).2 in
  let built := _build_wheel E Scenario.wheels Scenario.tmp false σ in
  built.1
  = Raise (Exn OSError
             (cannot_determine "databrickslabs" "blueprint"
                (exn_str (called_process_error git_describe_argv 128))))
  ∧ ∃ rc, trace built.2 = [EvRun git_describe_argv PIPE Inherit rc].
Proof.
  intros E σ built.
  apply (failed_version_stops_build E Scenario.wheels Scenario.tmp false σ
           (called_process_error git_describe_argv 128));
    vm_compute; reflexivity.
Defined.

(** X8.  With [verbose] set, the build hands [subprocess.STDOUT]
    to [subprocess.run] as the standard output of the packaging tool,
    which that function refuses before it starts a process: a verbose
    build returns no wheel.  When its staging raises, it ends as the
    staging ended; otherwise it raises the [OSError] of a bad file
    descriptor and leaves the state of the staging, one tick later,
    with the log line and the refused call as the last two events. *)
Theorem verbose_build_returns_no_wheel (env : Env) (self : Wheels)
    (tmp_dir : path) (σ : State) :
  let staged := stage_project env self tmp_dir σ in
  let built := _build_wheel env self tmp_dir true σ in
  is_ok built.1 = false
  ∧ built
    = match staged.1 with
      | Ok project_root =>
          (Raise bad_file_descriptor,
           log (EvRun (pip_wheel_argv env tmp_dir project_root)
                  STDOUT STDOUT None)
             (bump
                (log (EvLog "DEBUG"
                        ("Building wheel for " +:+ as_posix project_root
                         +:+ " in " +:+ as_posix tmp_dir))
                   staged.2)))
      | Raise e => (Raise e, staged.2)
      end.
Proof.
  intros staged built. subst staged built. rewrite build_wheel_stages.
  unfold bind. by destruct (stage_project _ _ _ _) as [[pr|e] σ1].
Qed.

(** *** The scope *)

(** X9.  A successful [__enter__] binds [_remote_wheel] to the
    install folder, [/wheels/] and the artifact's file name, and, for a
    file name that holds no slash, [_remote_dir_name] to the install
    folder followed by [/wheels]. *)
Theorem enter_binds_wheels_folder (env : Env) (self : Wheels) (σ σ1 : State) :
  __enter__ env self σ = (Ok tt, σ1) →
  ∃ wheel,
    inst_dict σ1 !! "_local_wheel" = Some (VPath wheel)
    ∧ inst_dict σ1 !! "_remote_wheel"
      = Some (VStr (install_folder (_install_state self) +:+ "/wheels/"
                    +:+ name wheel))
    ∧ (mem "/" (name wheel) = false →
       inst_dict σ1 !! "_remote_dir_name"
       = Some (VStr (install_folder (_install_state self) +:+ "/wheels"))).
Proof.
  intros (_ & _ & wheel & rest & _ & Hw & Hr & Hd)%enter_ok.
  exists wheel. split; [done|]. split; [done|]. intros Hnm.
  by rewrite Hd, remote_dir_is_wheels_folder.
Qed.

Lemma enter_binds_wheels_folder_witness :
  let E := Scenario.env Scenario.after_tag Scenario.one_wheel in
  let σ1 := (__enter__ E Scenario.wheels (init Scenario.checkout)).2 in
  inst_dict σ1 !! "_remote_wheel"
  = Some (VStr "/Users/me/.blueprint/wheels/blueprint-1.2.4-py3-none-any.whl")
  ∧ inst_dict σ1 !! "_remote_dir_name" = Some (VStr "/Users/me/.blueprint/wheels").
Proof.
  intros E σ1.
  destruct (enter_binds_wheels_folder E Scenario.wheels
              (init Scenario.checkout) σ1) as (wheel & Hw & Hr & Hd);
    [vm_compute; reflexivity|].
  vm_compute in Hw. injection Hw as <-.
  split; [exact Hr|]. apply Hd. vm_compute. reflexivity.
Defined.

(** X10.  When [__enter__] raises on an instance that holds no
    artifact, it has bound none: either upload on the instance it
    leaves raises [AttributeError] for [_local_wheel] and changes
    nothing. *)
Theorem failed_enter_binds_no_artifact (env : Env) (self : Wheels)
    (σ σ1 : State) (e : exn) (t : storage) :
  inst_dict σ !! "_local_wheel" = None →
  __enter__ env self σ = (Raise e, σ1) →
  upload t σ1 = (Raise (attribute_error "_local_wheel"), σ1).
Proof.
  intros Hd He. apply upload_unbound. rewrite <-Hd. revert He.
  rewrite enter_eq. unfold enter_direct, bind at 1.
  destruct (TemporaryDirectory env σ) as [[tmp|e0] σa] eqn:Ht.
  - assert (inst_dict σa = inst_dict σ) as Ha.
    { revert Ht. unfold TemporaryDirectory. by repeat case_match; intros [= _ <-]. }
    unfold bind at 1, setattr at 1. unfold bind at 1.
    pose proof (respects_build_wheel (same_attr "_local_wheel")
                  (same_attr_refl _) (same_attr_trans _) (λ _, True)
                  (λ _ _ _, True) env self tmp false
                  (same_attr_build "_local_wheel" env ltac:(done)) I I (λ _, I)
                  (set_dict (<["_tmp_dir" := VTmpDir tmp]> (inst_dict σa)) σa))
      as Hb.
    destruct (_build_wheel env self tmp false _) as [[w|e1] σb].
    + unfold bind_attrs, bind, setattr, ret. done.
    + intros [= _ <-]. unfold same_attr in Hb. simpl in Hb.
      by rewrite Hb, lookup_insert_ne, Ha.
  - intros [= _ <-]. revert Ht. unfold TemporaryDirectory.
    by repeat case_match; intros [= _ <-].
Qed.

Lemma failed_enter_binds_no_artifact_witness :
  let E := Scenario.env Scenario.after_tag Scenario.no_wheel in
  let failed := __enter__ E Scenario.wheels (init Scenario.checkout) in
  failed.1 = Raise (Exn StopIteration "")
  ∧ upload DBFS failed.2
    = (Raise (Exn AttributeError "'Wheels' object has no attribute '_local_wheel'"),
       failed.2).
Proof.
  intros E failed. split; [vm_compute; reflexivity|].
  apply (failed_enter_binds_no_artifact E Scenario.wheels
           (init Scenario.checkout) failed.2 (Exn StopIteration "") DBFS).
  - reflexivity.
  - vm_compute. reflexivity.
Defined.



(** X12.  On an instance whose [__enter__] has never been called,
    whatever else has been called on it, both uploads raise
    [AttributeError] for [_local_wheel] and [__exit__] raises it for
    [_tmp_dir]; none of them changes anything, and no remote call is
    made. *)
Theorem uploads_need_enter (env : Env) (self : Wheels) (root : node)
    (ops : list public_op) (t : storage) :
  Enter ∉ ops →
  let σ := after_all env self ops (init root) in
  upload t σ = (Raise (attribute_error "_local_wheel"), σ)
  ∧ __exit__ σ = (Raise (attribute_error "_tmp_dir"), σ).
Proof.
  intros Hops σ. split.
  - apply upload_unbound. unfold σ. by rewrite no_enter_keeps_attr.
  - apply exit_unbound. unfold σ. by rewrite no_enter_keeps_attr.
Qed.

Lemma uploads_need_enter_witness :
  let E := Scenario.env Scenario.after_tag Scenario.one_wheel in
  let σ := after_all E Scenario.wheels [Version; UploadToWsfs; Exit]
             (init Scenario.checkout) in
  upload DBFS σ
  = (Raise (Exn AttributeError "'Wheels' object has no attribute '_local_wheel'"), σ)
  ∧ __exit__ σ
    = (Raise (Exn AttributeError "'Wheels' object has no attribute '_tmp_dir'"), σ).
Proof.
  intros E σ.
  apply (uploads_need_enter E Scenario.wheels Scenario.checkout
           [Version; UploadToWsfs; Exit] DBFS).
  rewrite !not_elem_of_cons. repeat split; try done. apply not_elem_of_nil.
Defined.



(** *** The uploads *)

(** X14.  An upload works on its own store only: it leaves the local
    files, the instance and the other store as they are, whether it
    returns or raises; and on its own store it removes nothing, every
    directory and every file that was there is there afterwards. *)
Theorem upload_touches_one_store (t : storage) (σ : State) :
  let σ' := (upload t σ).2 in
  fs σ' = fs σ
  ∧ inst_dict σ' = inst_dict σ
  ∧ get_remote (other_store t) σ' = get_remote (other_store t) σ
  ∧ r_dirs (get_remote t σ) ⊆ r_dirs (get_remote t σ')
  ∧ ∀ k, is_Some (r_files (get_remote t σ) !! k)
         → is_Some (r_files (get_remote t σ') !! k).
Proof.
  apply (respects_upload_store (keeps_but_store t) t
           (keeps_but_store_refl t) (keeps_but_store_trans t)).
  - intros level msg σ0. by destruct t.
  - intros d σ0. destruct t; (repeat split; [done..|simpl; set_solver|done]).
  - intros d c o f σ0. unfold remote_upload.
    destruct t; case_match; simpl; (repeat split; [done..|]);
      intros k Hk; try done; simpl;
      (destruct (decide (d = k)) as [->|];
       [by rewrite lookup_insert_eq|by rewrite lookup_insert_ne]).
Qed.

(** X15.  Uploading is idempotent: on an instance that holds its
    artifact, a second upload to the same store returns the same path
    and leaves that store exactly as the first upload left it. *)
Theorem second_upload_changes_no_store (self : Wheels) (t : storage)
    (wheel : path) (content : string) (σ : State) :
  holds_artifact self wheel content σ →
  let once := upload t σ in
  let twice := upload t once.2 in
  twice.1 = once.1
  ∧ get_remote t twice.2 = get_remote t once.2
  ∧ get_remote (other_store t) twice.2 = get_remote (other_store t) σ.
Proof.
  intros Hh once twice. subst twice once.
  destruct (upload_ok self t wheel content σ Hh) as (σ2 & Hup & Hh2 & _).
  simpl in Hup. rewrite Hup. simpl.
  rewrite (upload_run self t wheel content σ2 Hh2).
  pose proof (upload_run self t wheel content σ Hh) as Hup'. simpl in Hup'.
  rewrite Hup in Hup'. injection Hup' as ->.
  split; [done|]. unfold uploaded.
  destruct t; simpl; (split; [|done]); f_equal;
    [by rewrite (assoc_L (∪)), (idemp_L (∪))|by rewrite insert_insert_eq
    |by rewrite (assoc_L (∪)), (idemp_L (∪))|by rewrite insert_insert_eq].
Qed.

Lemma second_upload_changes_no_store_witness :
  let E := Scenario.env Scenario.after_tag Scenario.one_wheel in
  let σ1 := (__enter__ E Scenario.wheels (init Scenario.checkout)).2 in
  get_remote DBFS (upload DBFS (upload DBFS σ1).2).2
  = get_remote DBFS (upload DBFS σ1).2.
Proof.
  intros E σ1.
  apply (second_upload_changes_no_store Scenario.wheels DBFS
           (Scenario.tmp ++ ["blueprint-1.2.4-py3-none-any.whl"]) "PK" σ1).
  repeat split; vm_compute; reflexivity.
Defined.
